(** * Weather data visualization app: aggregation, panels and search

    A shallow embedding of the front-end code of the repository
    (frontend/src/types.ts, frontend/src/components/WeatherCharts.tsx,
    frontend/src/components/AIPatternsPanel.tsx, the search bar and the
    application shell) together with the properties its specification states
    about it.  The Location Resolver of the specification lives in the back
    end, which is not among the sources; it is modelled from the
    specification.

    JavaScript numbers are IEEE-754 binary64 values: they are modelled by
    Rocq's primitive floats.  JavaScript strings are modelled by [string],
    one [ascii] per code unit (code units below 256).  A call that may throw
    returns a [Completion]. *)

From Stdlib Require Import ZArith List Sorted String Ascii Bool Lia.
From Stdlib Require Import PrimFloat Uint63.
Import ListNotations.

Local Open Scope string_scope.
Local Open Scope list_scope.
Local Open Scope Z_scope.

(** ** Completions: normal results and thrown exceptions *)

Inductive JsError : Type :=
| RangeError (message : string)
| TypeError (message : string)
| OtherError (message : string).

Inductive Completion (A : Type) : Type :=
| Normal (value : A)
| Throw (error : JsError).

Arguments Normal {A} value.
Arguments Throw {A} error.

Definition bind {A B : Type} (c : Completion A) (k : A -> Completion B)
  : Completion B :=
  match c with
  | Normal a => k a
  | Throw e => Throw e
  end.

Notation "x <- c ;; k" := (bind c (fun x => k))
  (at level 61, c at next level, right associativity).

(** [Array.prototype.map] with a callback that may throw: the first exception
    aborts the traversal. *)
Fixpoint mapM {A B : Type} (f : A -> Completion B) (l : list A)
  : Completion (list B) :=
  match l with
  | [] => Normal []
  | a :: r => b <- f a ;; bs <- mapM f r ;; Normal (b :: bs)
  end.

(** [Array.prototype.forEach] threading the object the callback mutates. *)
Fixpoint forEachM {A S : Type} (f : S -> A -> Completion S) (l : list A) (s : S)
  : Completion S :=
  match l with
  | [] => Normal s
  | a :: r => s' <- f s a ;; forEachM f r s'
  end.

(** ** The date library (date-fns) and the host's time zone

    [parseISO] and [format] belong to the third-party package date-fns, not to
    the repository.  They are modelled here from the package's documented
    behaviour, for the extended calendar formats
    [YYYY-MM-DD], [YYYY-MM-DD(T| )HH:mm] and [YYYY-MM-DD(T| )HH:mm:ss],
    the last two optionally followed by [Z] or [+HH:mm] / [-HH:mm].  The
    model returns [InvalidDate] for every other string: the package does so
    for strings that are no ISO-8601 date at all, and accepts further
    variants (week dates, ordinal dates, basic format, fractions) that are
    left out here.  The host's zone is a fixed offset from UTC (no
    daylight-saving transitions). *)

Module DateFns.

(** What the host contributes to a run: its time zone, its clock and its
    locale.  Only code that reads a field depends on it. *)
Record Host : Type := {
  utcOffsetMinutes : Z;   (* local time minus UTC, in minutes *)
  clockMs : Z;            (* Date.now() *)
  locale : string         (* navigator.language *)
}.

(** A JavaScript [Date]: a time value in milliseconds since the epoch, or the
    invalid date (time value NaN). *)
Inductive JsDate : Type :=
| InvalidDate
| DateMs (t : Z).

Definition msInMinute : Z := 60000.
Definition msInHour : Z := 3600000.
Definition msInDay : Z := 86400000.

Definition isLeapYearIndex (year : Z) : bool :=
  (year mod 400 =? 0) || ((year mod 4 =? 0) && negb (year mod 100 =? 0)).

(** Days of a month, [month] counted from 1. *)
Definition daysInMonth (year month : Z) : Z :=
  if month =? 2 then (if isLeapYearIndex year then 29 else 28)
  else if (month =? 4) || (month =? 6) || (month =? 9) || (month =? 11) then 30
  else 31.

(** Day number of a civil date (proleptic Gregorian calendar), day 0 being
    1970-01-01: what [Date.UTC(year, month - 1, day) / msInDay] computes. *)
Definition daysFromCivil (year month day : Z) : Z :=
  let y := if month <=? 2 then year - 1 else year in
  let era := y / 400 in
  let yoe := y - era * 400 in
  let mp := if month <=? 2 then month + 9 else month - 3 in
  let doy := (153 * mp + 2) / 5 + day - 1 in
  let doe := yoe * 365 + yoe / 4 - yoe / 100 + doy in
  era * 146097 + doe - 719468.

(** The civil date of a day number: [getFullYear], [getMonth() + 1] and
    [getDate] of a time value already shifted to the wanted zone. *)
Definition civilFromDays (days : Z) : Z * Z * Z :=
  let z := days + 719468 in
  let era := z / 146097 in
  let doe := z - era * 146097 in
  let yoe := (doe - doe / 1460 + doe / 36524 - doe / 146096) / 365 in
  let doy := doe - (365 * yoe + yoe / 4 - yoe / 100) in
  let mp := (5 * doy + 2) / 153 in
  let d := doy - (153 * mp + 2) / 5 + 1 in
  let m := if mp <? 10 then mp + 3 else mp - 9 in
  let y := yoe + era * 400 in
  ((if m <=? 2 then y + 1 else y), m, d).

(** *** Parsing *)

Definition digit (c : ascii) : option Z :=
  let n := Z.of_nat (nat_of_ascii c) in
  if (48 <=? n) && (n <=? 57) then Some (n - 48) else None.

Definition digits2 (a b : ascii) : option Z :=
  match digit a, digit b with
  | Some x, Some y => Some (10 * x + y)
  | _, _ => None
  end.

Definition digits4 (a b c d : ascii) : option Z :=
  match digits2 a b, digits2 c d with
  | Some x, Some y => Some (100 * x + y)
  | _, _ => None
  end.

(** The fields read off an ISO string, before validation.  [zone] is the
    designator's offset in milliseconds as date-fns computes it (the amount
    added to reach UTC), [None] when the string carries no designator. *)
Record IsoFields : Type := {
  year : Z;
  month : Z;
  day : Z;
  hours : Z;
  minutes : Z;
  seconds : Z;
  zone : option Z
}.

Definition isDateTimeDelimiter (c : ascii) : bool :=
  Ascii.eqb c "T" || Ascii.eqb c " ".

(** [Z], [+HH:mm] or [-HH:mm]; the empty rest means no designator.
    The outer option is the syntax check. *)
Definition parseTimezone (s : list ascii) : option (option Z) :=
  match s with
  | [] => Some None
  | [z] => if Ascii.eqb z "Z" then Some (Some 0) else None
  | [sg; h1; h2; c; m1; m2] =>
      if Ascii.eqb c ":" then
        match digits2 h1 h2, digits2 m1 m2 with
        | Some h, Some m =>
            if m <=? 59 then
              if Ascii.eqb sg "+" then Some (Some (- (h * msInHour + m * msInMinute)))
              else if Ascii.eqb sg "-" then Some (Some (h * msInHour + m * msInMinute))
              else None
            else None
        | _, _ => None
        end
      else None
  | _ => None
  end.

(** [HH:mm] or [HH:mm:ss], then the zone designator. *)
Definition parseTime (s : list ascii) : option (Z * Z * Z * option Z) :=
  match s with
  | h1 :: h2 :: c1 :: m1 :: m2 :: rest =>
      if Ascii.eqb c1 ":" then
        match digits2 h1 h2, digits2 m1 m2 with
        | Some h, Some m =>
            match rest with
            | c2 :: s1 :: s2 :: rest' =>
                if Ascii.eqb c2 ":" then
                  match digits2 s1 s2, parseTimezone rest' with
                  | Some sec, Some z => Some (h, m, sec, z)
                  | _, _ => None
                  end
                else
                  match parseTimezone rest with
                  | Some z => Some (h, m, 0, z)
                  | None => None
                  end
            | _ =>
                match parseTimezone rest with
                | Some z => Some (h, m, 0, z)
                | None => None
                end
            end
        | _, _ => None
        end
      else None
  | _ => None
  end.

Definition splitDateString (s : list ascii) : option IsoFields :=
  match s with
  | y1 :: y2 :: y3 :: y4 :: c1 :: m1 :: m2 :: c2 :: d1 :: d2 :: rest =>
      if Ascii.eqb c1 "-" && Ascii.eqb c2 "-" then
        match digits4 y1 y2 y3 y4, digits2 m1 m2, digits2 d1 d2 with
        | Some y, Some m, Some d =>
            match rest with
            | [] => Some {| year := y; month := m; day := d; hours := 0;
                            minutes := 0; seconds := 0; zone := None |}
            | sep :: t =>
                if isDateTimeDelimiter sep then
                  match parseTime t with
                  | Some (h, mi, sec, z) =>
                      Some {| year := y; month := m; day := d; hours := h;
                              minutes := mi; seconds := sec; zone := z |}
                  | None => None
                  end
                else None
            end
        | _, _, _ => None
        end
      else None
  | _ => None
  end.

Definition validateDate (f : IsoFields) : bool :=
  (1 <=? month f) && (month f <=? 12) &&
  (1 <=? day f) && (day f <=? daysInMonth (year f) (month f)).

Definition validateTime (f : IsoFields) : bool :=
  if hours f =? 24 then (minutes f =? 0) && (seconds f =? 0)
  else (seconds f <? 60) && (minutes f <? 60) && (hours f <? 25).

(** The time value of validated fields.  With a designator the fields are
    UTC fields shifted by the designator; without one they are fields of the
    host's local time. *)
Definition timeValue (host : Host) (f : IsoFields) : Z :=
  let timestamp := daysFromCivil (year f) (month f) (day f) * msInDay in
  let time := hours f * msInHour + minutes f * msInMinute + seconds f * 1000 in
  match zone f with
  | Some offset => timestamp + time + offset
  | None => timestamp + time - utcOffsetMinutes host * msInMinute
  end.

Definition parseISO (host : Host) (argument : string) : JsDate :=
  match splitDateString (list_ascii_of_string argument) with
  | Some f =>
      if validateDate f && validateTime f then DateMs (timeValue host f)
      else InvalidDate
  | None => InvalidDate
  end.

(** *** Formatting *)

(** Decimal digits of a non-negative integer, most significant first. *)
Fixpoint digitsOf (fuel : nat) (n : Z) (acc : string) : string :=
  match fuel with
  | O => acc
  | S fuel' =>
      let acc' := String (ascii_of_nat (48 + Z.to_nat (n mod 10))) acc in
      if n <? 10 then acc' else digitsOf fuel' (n / 10) acc'
  end.

(** [Number.prototype.toString()] of a non-negative integer. *)
Definition toString (n : Z) : string :=
  digitsOf (S (Z.to_nat (Z.log2 n))) n "".

(** [String.prototype.padStart(targetLength, "0")]. *)
Definition padStart0 (s : string) (targetLength : nat) : string :=
  String.append
    (string_of_list_ascii (repeat "0"%char (targetLength - String.length s))) s.

Definition addLeadingZeros (number : Z) (targetLength : nat) : string :=
  let sign := if number <? 0 then "-" else "" in
  String.append sign (padStart0 (toString (Z.abs number)) targetLength).

(** The tokens of the three patterns the application uses. *)
Inductive Token : Type :=
| yyyy | MM | dd | HH | mm
| Literal (text : string).

Definition pattern_dd_MM_HH_mm : list Token :=
  [dd; Literal "/"; MM; Literal " "; HH; Literal ":"; mm].
Definition pattern_yyyy_MM_dd : list Token :=
  [yyyy; Literal "-"; MM; Literal "-"; dd].
Definition pattern_yyyy_MM : list Token :=
  [yyyy; Literal "-"; MM].

(** The host's local wall-clock reading of a time value. *)
Definition localMs (host : Host) (t : Z) : Z :=
  t + utcOffsetMinutes host * msInMinute.

Definition formatToken (host : Host) (t : Z) (tok : Token) : string :=
  let l := localMs host t in
  let '(y, m, d) := civilFromDays (l / msInDay) in
  match tok with
  | yyyy => addLeadingZeros (if 0 <? y then y else 1 - y) 4
  | MM => addLeadingZeros m 2
  | dd => addLeadingZeros d 2
  | HH => addLeadingZeros ((l mod msInDay) / msInHour) 2
  | mm => addLeadingZeros ((l mod msInHour) / msInMinute) 2
  | Literal text => text
  end.

(** [format(date, pattern)]: throws [RangeError] on the invalid date. *)
Definition format (host : Host) (date : JsDate) (pattern : list Token)
  : Completion string :=
  match date with
  | InvalidDate => Throw (RangeError "Invalid time value")
  | DateMs t => Normal (String.concat "" (map (formatToken host t) pattern))
  end.

End DateFns.


(** ** frontend/src/types.ts *)

Module Types.

Record LocationResult : Type := {
  lat : float;
  lon : float;
  display_name : string;
  type : option string;
  importance : option float
}.

Record TimeSeriesPoint : Type := {
  timestamp : string;
  cloud_cover_pct : float;
  lightning_prob_pct : float
}.

End Types.

(** ** frontend/src/components/WeatherCharts.tsx *)

Module WeatherCharts.

Import DateFns.

Inductive AggregationType : Type := hourly | daily | monthly.

Record ChartDataPoint : Type := {
  label : string;
  cloud_cover_pct : float;
  lightning_prob_pct : float;
  timestamp : string
}.

(** The value type of [grouped]: the two arrays a bucket accumulates. *)
Record Bucket : Type := {
  cloud : list float;
  lightning : list float
}.

(** [grouped], a plain object used as a map.  Its keys are formatted dates:
    they contain a hyphen, so none is integer-like and none names an
    inherited property.  [Object.entries] therefore lists them in insertion
    order and [grouped[key]] is truthy exactly for the keys inserted: an
    association list, new keys at the end. *)
Definition Grouped : Type := list (string * Bucket).

Definition hasKey (grouped : Grouped) (key : string) : bool :=
  existsb (fun kv => String.eqb (fst kv) key) grouped.

(** [grouped[key].cloud.push(c); grouped[key].lightning.push(l)] *)
Definition pushInto (grouped : Grouped) (key : string) (c l : float) : Grouped :=
  map (fun kv =>
         if String.eqb (fst kv) key
         then (fst kv, {| cloud := cloud (snd kv) ++ [c];
                          lightning := lightning (snd kv) ++ [l] |})
         else kv) grouped.

(** The bucket key of a point (lines 40-44). *)
Definition bucketKey (host : Host) (agg : AggregationType)
    (p : Types.TimeSeriesPoint) : Completion string :=
  let d := parseISO host (Types.timestamp p) in
  match agg with
  | daily => format host d pattern_yyyy_MM_dd
  | _ => format host d pattern_yyyy_MM
  end.

(** The body of the [forEach] callback (lines 39-48). *)
Definition groupPoint (host : Host) (agg : AggregationType)
    (grouped : Grouped) (p : Types.TimeSeriesPoint) : Completion Grouped :=
  key <- bucketKey host agg p ;;
  let grouped' :=
    if negb (hasKey grouped key)
    then grouped ++ [(key, {| cloud := []; lightning := [] |})]
    else grouped in
  Normal (pushInto grouped' key (Types.cloud_cover_pct p)
                   (Types.lightning_prob_pct p)).

Definition groupSeries (host : Host) (agg : AggregationType)
    (series : list Types.TimeSeriesPoint) : Completion Grouped :=
  forEachM (groupPoint host agg) series [].

(** [xs.reduce((a, b) => a + b, 0)] *)
Definition sum (xs : list float) : float :=
  fold_left PrimFloat.add xs 0%float.

(** [xs.length] as a number. *)
Definition lengthOf (xs : list float) : float :=
  PrimFloat.of_uint63 (Uint63.of_Z (Z.of_nat (List.length xs))).

(** [xs.reduce((a, b) => a + b, 0) / xs.length] *)
Definition mean (xs : list float) : float :=
  PrimFloat.div (sum xs) (lengthOf xs).

(** One entry of [Object.entries(grouped)] turned into a chart point
    (lines 49-54). *)
Definition bucketPoint (kv : string * Bucket) : ChartDataPoint :=
  {| label := fst kv;
     cloud_cover_pct := mean (cloud (snd kv));
     lightning_prob_pct := mean (lightning (snd kv));
     timestamp := fst kv |}.

(** The callback of the hourly branch (lines 31-36). *)
Definition hourlyPoint (host : Host) (p : Types.TimeSeriesPoint)
  : Completion ChartDataPoint :=
  l <- format host (parseISO host (Types.timestamp p)) pattern_dd_MM_HH_mm ;;
  Normal {| label := l;
            cloud_cover_pct := Types.cloud_cover_pct p;
            lightning_prob_pct := Types.lightning_prob_pct p;
            timestamp := Types.timestamp p |}.

Definition isHourly (agg : AggregationType) : bool :=
  match agg with hourly => true | _ => false end.

Definition aggregateData (host : Host) (series : list Types.TimeSeriesPoint)
    (agg : AggregationType) : Completion (list ChartDataPoint) :=
  if isHourly agg || (Z.of_nat (List.length series) <=? 24) then
    mapM (hourlyPoint host) series
  else
    grouped <- groupSeries host agg series ;;
    Normal (map bucketPoint grouped).

End WeatherCharts.

(** ** Checks used for the calendar arithmetic *)

Module DateChecks.

Import DateFns.

(** The integers [lo], [lo + 1], ..., [lo + n - 1]. *)
Definition zrange (lo n : Z) : list Z :=
  map (fun i => lo + Z.of_nat i) (seq 0 (Z.to_nat n)).

Definition tripleEqb (a b : Z * Z * Z) : bool :=
  let '(a1, a2, a3) := a in let '(b1, b2, b3) := b in
  (a1 =? b1) && (a2 =? b2) && (a3 =? b3).

(** Converting a valid civil date to its day number and back returns it. *)
Definition roundTripOk (y m d : Z) : bool :=
  if d <=? daysInMonth y m
  then tripleEqb (civilFromDays (daysFromCivil y m d)) (y, m, d)
  else true.

(** The character of a decimal digit. *)
Definition digitChar (x : Z) : ascii := ascii_of_nat (48 + Z.to_nat x).

(** [addLeadingZeros] writes a number below 100 as its two digits. *)
Definition two_ok (n : Z) : bool :=
  String.eqb (addLeadingZeros n 2)
             (String (digitChar (n / 10)) (String (digitChar (n mod 10)) "")).

(** [addLeadingZeros] writes a number below 10000 as its four digits. *)
Definition four_ok (n : Z) : bool :=
  String.eqb (addLeadingZeros n 4)
    (String (digitChar (n / 1000))
       (String (digitChar ((n / 100) mod 10))
          (String (digitChar ((n / 10) mod 10))
             (String (digitChar (n mod 10)) "")))).

End DateChecks.

(** ** Vocabulary of the aggregation properties *)

Module AggregationSpec.

Import DateFns WeatherCharts.

(** A timestamp the date library accepts. *)
Definition parses (host : Host) (p : Types.TimeSeriesPoint) : Prop :=
  parseISO host (Types.timestamp p) <> InvalidDate.

Definition parsesb (host : Host) (p : Types.TimeSeriesPoint) : bool :=
  match parseISO host (Types.timestamp p) with
  | DateMs _ => true
  | InvalidDate => false
  end.

(** The time value of a point's timestamp (0 for one that does not parse). *)
Definition instantOf (host : Host) (p : Types.TimeSeriesPoint) : Z :=
  match parseISO host (Types.timestamp p) with
  | DateMs t => t
  | InvalidDate => 0
  end.

(** The calendar key of a point as a plain string (empty when the key
    computation throws). *)
Definition keyOf (host : Host) (agg : AggregationType)
    (p : Types.TimeSeriesPoint) : string :=
  match bucketKey host agg p with
  | Normal k => k
  | Throw _ => ""
  end.

Section FirstSeen.

Context {A : Type} (key : A -> string).

Definition seenIn (seen : list string) (k : string) : bool :=
  existsb (fun k' => String.eqb k' k) seen.

(** The elements that introduce a key not met before, in input order. *)
Fixpoint firstSeenBy (seen : list string) (l : list A) : list A :=
  match l with
  | [] => []
  | a :: r =>
      if seenIn seen (key a) then firstSeenBy seen r
      else a :: firstSeenBy (seen ++ [key a]) r
  end.

(** The elements carrying key [k], in input order. *)
Definition sharing (k : string) (l : list A) : list A :=
  filter (fun a => String.eqb (key a) k) l.

End FirstSeen.

(** [reps] is obtained from [l] by deleting elements, order kept. *)
Inductive Subsequence {A : Type} : list A -> list A -> Prop :=
| sub_nil : Subsequence [] []
| sub_skip a reps l : Subsequence reps l -> Subsequence reps (a :: l)
| sub_keep a reps l : Subsequence reps l -> Subsequence (a :: reps) (a :: l).

(** The arithmetic mean of a field over a list of points: the sum of the
    values, taken in input order from 0, divided by their number. *)
Definition meanOf (field : Types.TimeSeriesPoint -> float)
    (l : list Types.TimeSeriesPoint) : float :=
  PrimFloat.div (fold_left PrimFloat.add (map field l) 0%float)
                (PrimFloat.of_uint63 (Uint63.of_Z (Z.of_nat (List.length l)))).

(** The bucket the specification describes for key [k]. *)
Definition specBucket (host : Host) (agg : AggregationType)
    (series : list Types.TimeSeriesPoint) (k : string) : ChartDataPoint :=
  {| label := k;
     cloud_cover_pct :=
       meanOf Types.cloud_cover_pct (sharing (keyOf host agg) k series);
     lightning_prob_pct :=
       meanOf Types.lightning_prob_pct (sharing (keyOf host agg) k series);
     timestamp := k |}.

(** The per-point output of the hourly shape. *)
Definition carries (q : ChartDataPoint) (p : Types.TimeSeriesPoint) : Prop :=
  cloud_cover_pct q = Types.cloud_cover_pct p /\
  lightning_prob_pct q = Types.lightning_prob_pct p /\
  timestamp q = Types.timestamp p.

(** The callback of the [forEach] once the key of its point is known. *)
Definition groupStep (host : Host) (agg : AggregationType)
    (g : Grouped) (p : Types.TimeSeriesPoint) : Grouped :=
  pushInto (if negb (hasKey g (keyOf host agg p))
            then g ++ [(keyOf host agg p, {| cloud := []; lightning := [] |})]
            else g)
           (keyOf host agg p)
           (Types.cloud_cover_pct p) (Types.lightning_prob_pct p).

(** A bucket extended with the values of the points of [l] sharing its key. *)
Definition extend (host : Host) (agg : AggregationType)
    (l : list Types.TimeSeriesPoint) (kv : string * Bucket) : string * Bucket :=
  (fst kv,
   {| cloud := cloud (snd kv)
        ++ map Types.cloud_cover_pct (sharing (keyOf host agg) (fst kv) l);
      lightning := lightning (snd kv)
        ++ map Types.lightning_prob_pct (sharing (keyOf host agg) (fst kv) l) |}).

(** The bucket opened by point [p], filled from [l]. *)
Definition fresh (host : Host) (agg : AggregationType)
    (l : list Types.TimeSeriesPoint) (p : Types.TimeSeriesPoint)
  : string * Bucket :=
  extend host agg l (keyOf host agg p, {| cloud := []; lightning := [] |}).

(** Every bucket of [g] holds at least one value in each of its arrays. *)
Definition populated (g : Grouped) : Prop :=
  Forall (fun kv => (0 < List.length (cloud (snd kv)))%nat /\
                    (0 < List.length (lightning (snd kv)))%nat) g.

(** [ts.slice(0, n)] *)
Definition slice0 (ts : string) (n : nat) : string :=
  string_of_list_ascii (firstn n (list_ascii_of_string ts)).

End AggregationSpec.

(** ** JavaScript values as [JSON.parse] builds them *)

Module Js.

Local Set Warnings "-register-all".

Inductive Value : Type :=
| Undefined
| Null
| Bool (b : bool)
| Number (x : float)
| Str (s : string)
| Array (items : list Value)
| Object (fields : list (string * Value)).

(** An own property of a parsed object ([undefined] when absent). *)
Fixpoint getOwn (fields : list (string * Value)) (name : string) : Value :=
  match fields with
  | [] => Undefined
  | (k, v) :: rest => if String.eqb k name then v else getOwn rest name
  end.

Definition lengthNumber (n : nat) : Value :=
  Number (PrimFloat.of_uint63 (Uint63.of_Z (Z.of_nat n))).

(** Reading property [name] of a value that is neither [undefined] nor
    [null].  Of the inherited properties only [length] of arrays and strings
    is a data property the application reads; methods are handled where they
    are called. *)
Definition member (v : Value) (name : string) : Value :=
  match v with
  | Object fields => getOwn fields name
  | Array items =>
      if String.eqb name "length" then lengthNumber (List.length items)
      else Undefined
  | Str s =>
      if String.eqb name "length" then lengthNumber (String.length s)
      else Undefined
  | _ => Undefined
  end.

(** [v?.name] *)
Definition optionalGet (v : Value) (name : string) : Value :=
  match v with
  | Undefined | Null => Undefined
  | _ => member v name
  end.

(** [v.name]: throws on [undefined] and [null]. *)
Definition get (v : Value) (name : string) : Completion Value :=
  match v with
  | Undefined | Null =>
      Throw (TypeError ("Cannot read properties of undefined (reading '"
                        ++ name ++ "')"))
  | _ => Normal (member v name)
  end.

(** [ToBoolean] *)
Definition truthy (v : Value) : bool :=
  match v with
  | Undefined | Null => false
  | Bool b => b
  | Number x => negb (PrimFloat.eqb x 0%float || PrimFloat.is_nan x)
  | Str s => negb (String.eqb s "")
  | Array _ | Object _ => true
  end.

End Js.

(** ** frontend/src/components/AIPatternsPanel.tsx *)

Module AIPatternsPanel.

Import Js.

(** One [pattern-card] element: its [key], the displayed name and the
    probability the bar and the percentage are computed from. *)
Record PatternCard : Type := {
  key : Value;
  displayedName : string;
  probability : Value
}.

(** The [section] element the component returns: the summary, the value the
    risk badge is computed from, and the cards. *)
Record Panel : Type := {
  summary : Value;
  convective_risk : Value;
  cards : list PatternCard
}.

(** [s.replace(/_/g, ' ')] *)
Fixpoint replaceUnderscores (s : string) : string :=
  match s with
  | EmptyString => EmptyString
  | String c rest =>
      String (if Ascii.eqb c "_" then " "%char else c) (replaceUnderscores rest)
  end.

(** The callback of [data.patterns.map] (lines 29-40). *)
Definition patternCard (p : Value) : Completion PatternCard :=
  name <- get p "name" ;;
  shown <- match name with
           | Str s => Normal (replaceUnderscores s)
           | Undefined | Null =>
               Throw (TypeError
                        "Cannot read properties of undefined (reading 'replace')")
           | _ => Throw (TypeError "p.name.replace is not a function")
           end ;;
  prob <- get p "probability" ;;
  Normal {| key := name; displayedName := shown; probability := prob |}.

(** The component: [None] is the [null] it returns when it renders nothing. *)
Definition AIPatternsPanel (patterns : Value) : Completion (option Panel) :=
  let data := patterns in
  if negb (truthy (optionalGet (optionalGet data "patterns") "length")) then
    Normal None
  else
    summary <- get data "summary" ;;
    risk <- get data "convective_risk" ;;
    list <- get data "patterns" ;;
    cards <- match list with
             | Array items => mapM patternCard items
             | _ => Throw (TypeError "data.patterns.map is not a function")
             end ;;
    Normal (Some {| summary := summary; convective_risk := risk; cards := cards |}).

End AIPatternsPanel.

(** ** frontend/src/App.tsx (src/unnamed/part_001) *)

Module App.

Import Js.

(** The four [useState] cells of [App]. *)
Record State : Type := {
  weatherData : Value;
  aiPatterns : Value;
  loading : bool;
  error : option string
}.

Definition initial : State :=
  {| weatherData := Null; aiPatterns := Null; loading := false; error := None |}.

Definition setWeatherData (v : Value) (s : State) : State :=
  {| weatherData := v; aiPatterns := aiPatterns s;
     loading := loading s; error := error s |}.
Definition setAiPatterns (v : Value) (s : State) : State :=
  {| weatherData := weatherData s; aiPatterns := v;
     loading := loading s; error := error s |}.
Definition setLoading (b : bool) (s : State) : State :=
  {| weatherData := weatherData s; aiPatterns := aiPatterns s;
     loading := b; error := error s |}.
Definition setError (e : option string) (s : State) : State :=
  {| weatherData := weatherData s; aiPatterns := aiPatterns s;
     loading := loading s; error := e |}.

(** What a [fetch] settles to: a rejection (network failure), or a response
    with its [ok] flag and what [res.json()] settles to. *)
Record Response : Type := {
  ok : bool;
  json : Completion Value
}.

Inductive Settled : Type :=
| Rejected (reason : JsError)
| Resolved (response : Response).

(** [e instanceof Error ? e.message : 'Unknown error']; every rejection
    modelled here is an [Error]. *)
Definition messageOf (e : JsError) : string :=
  match e with
  | RangeError m | TypeError m | OtherError m => m
  end.

(** [await Promise.all([weather, ai])]: rejects as soon as one of the two
    promises rejects. *)
Definition promiseAll (weather ai : Settled) : Completion (Response * Response) :=
  match weather, ai with
  | Rejected e, _ => Throw e
  | _, Rejected e => Throw e
  | Resolved w, Resolved a => Normal (w, a)
  end.

(** The [try] block of [fetchWeatherByCoords] (lines 96-108): the state it
    reaches and the exception that left it, if any. *)
Definition tryFetch (weather ai : Settled) (s : State) : State * option JsError :=
  match promiseAll weather ai with
  | Throw e => (s, Some e)
  | Normal (weatherRes, aiRes) =>
      if negb (ok weatherRes) then (s, Some (OtherError "Failed to fetch weather"))
      else
        match json weatherRes with
        | Throw e => (s, Some e)
        | Normal weather =>
            let s1 := setWeatherData weather s in
            if ok aiRes then
              match json aiRes with
              | Throw e => (s1, Some e)
              | Normal ai => (setAiPatterns ai s1, None)
              end
            else (setAiPatterns Null s1, None)
        end
  end.

(** [fetchWeatherByCoords], once both requests have settled. *)
Definition fetchWeatherByCoords (weather ai : Settled) (s : State) : State :=
  let s0 := setError None (setLoading true s) in
  let '(s1, thrown) := tryFetch weather ai s0 in
  let s2 :=
    match thrown with
    | Some e =>
        setAiPatterns Null (setWeatherData Null (setError (Some (messageOf e)) s1))
    | None => s1
    end in
  setLoading false s2.

(** What [App] renders below the search bar (lines 157-180): the error
    banner, the loading notice, the charts with their data, the pattern
    panel with its prop, the empty-state hint. *)
Record View : Type := {
  errorBanner : option string;
  loadingNotice : bool;
  charts : option Value;
  patternPanel : option Value;
  emptyState : bool
}.

Definition truthyError (e : option string) : bool :=
  match e with
  | Some m => negb (String.eqb m "")
  | None => false
  end.

Definition render (s : State) : View :=
  let showData := truthy (weatherData s) && negb (loading s) in
  {| errorBanner := if truthyError (error s) then error s else None;
     loadingNotice := loading s;
     charts := if showData then Some (weatherData s) else None;
     patternPanel :=
       if showData && truthy (aiPatterns s) then Some (aiPatterns s) else None;
     emptyState :=
       negb (truthy (weatherData s)) && negb (loading s)
       && negb (truthyError (error s)) |}.

End App.

(** ** frontend/src/components/SearchBar.tsx (src/unnamed/part_002) *)

Module SearchBar.

(** [String.prototype.trim]: the white-space and line-terminator code units
    below 256. *)
Definition isWhiteSpace (c : ascii) : bool :=
  let n := nat_of_ascii c in
  ((9 <=? n)%nat && (n <=? 13)%nat) || (n =? 32)%nat || (n =? 160)%nat.

Fixpoint trimStart (s : list ascii) : list ascii :=
  match s with
  | [] => []
  | c :: rest => if isWhiteSpace c then trimStart rest else s
  end.

Definition trim (s : string) : string :=
  string_of_list_ascii
    (rev (trimStart (rev (trimStart (list_ascii_of_string s))))).

(** The component's state cells, and the pending debounce timer: the query
    captured by the [searchLocations] closure it will call. *)
Record State : Type := {
  query : string;
  results : list Types.LocationResult;
  showResults : bool;
  selectedResult : option Types.LocationResult;
  debounce : option string
}.

Definition initial : State :=
  {| query := ""; results := []; showResults := false;
     selectedResult := None; debounce := None |}.

(** What the suggestion request settles to. *)
Inductive SearchResponse : Type :=
| SearchFailed                   (* fetch, res.json() or data.results throws *)
| SearchNotOk                    (* !res.ok *)
| SearchOk (found : option (list Types.LocationResult)). (* data.results *)

Inductive Event : Type :=
| Change (value : string)
| TimerFires
| Responds (r : SearchResponse)
| Submit
| Select (r : Types.LocationResult)
| BlurTimerFires
| Focus.

(** What the component does to the outside: the suggestion request sent by
    the closure over [query] (its parameter is [query.trim()]), and the calls
    of the [onSearch] prop. *)
Inductive Action : Type :=
| GeocodeRequest (query : string)
| OnSearch (query : string) (selected : option Types.LocationResult).

Definition tooShort (q : string) : bool :=
  (String.length (trim q) <? 2)%nat.

(** The effect on [query] (lines 34-47), run after the previous effect's
    clean-up has cleared its timer. *)
Definition queryEffect (s : State) : State :=
  if tooShort (query s) then
    {| query := query s; results := []; showResults := false;
       selectedResult := selectedResult s; debounce := None |}
  else
    {| query := query s; results := results s; showResults := showResults s;
       selectedResult := selectedResult s; debounce := Some (query s) |}.

(** [setQuery(value)] followed by the re-render: nothing runs when the value
    is unchanged. *)
Definition setQuery (value : string) (s : State) : State :=
  if String.eqb value (query s) then s
  else queryEffect {| query := value; results := results s;
                      showResults := showResults s;
                      selectedResult := selectedResult s; debounce := None |}.

Definition setShowResults (b : bool) (s : State) : State :=
  {| query := query s; results := results s; showResults := b;
     selectedResult := selectedResult s; debounce := debounce s |}.

(** [searchLocations] as closed over [q] (lines 18-32), up to its request. *)
Definition searchLocations (q : string) : list Action :=
  if tooShort q then [] else [GeocodeRequest q].

(** The continuation of [searchLocations] after its request settles. *)
Definition receive (r : SearchResponse) (s : State) : State :=
  match r with
  | SearchFailed =>
      {| query := query s; results := []; showResults := showResults s;
         selectedResult := selectedResult s; debounce := debounce s |}
  | SearchNotOk => s
  | SearchOk found =>
      {| query := query s;
         results := match found with Some l => l | None => [] end;
         showResults := true; selectedResult := None; debounce := debounce s |}
  end.

(** [handleSubmit] (lines 49-59). *)
Definition handleSubmit (s : State) : State * list Action :=
  if String.eqb (trim (query s)) "" then (s, [])
  else (setShowResults false s, [OnSearch (query s) (selectedResult s)]).

(** [handleSelect] (lines 61-66). *)
Definition handleSelect (r : Types.LocationResult) (s : State)
  : State * list Action :=
  let s1 := {| query := query s; results := results s;
               showResults := showResults s; selectedResult := Some r;
               debounce := debounce s |} in
  (setShowResults false (setQuery (Types.display_name r) s1),
   [OnSearch (Types.display_name r) (Some r)]).

Definition step (s : State) (e : Event) : State * list Action :=
  match e with
  | Change value => (setShowResults false (setQuery value s), [])
  | TimerFires =>
      match debounce s with
      | Some q =>
          ({| query := query s; results := results s;
              showResults := showResults s;
              selectedResult := selectedResult s; debounce := None |},
           searchLocations q)
      | None => (s, [])
      end
  | Responds r => (receive r s, [])
  | Submit => handleSubmit s
  | Select r => handleSelect r s
  | BlurTimerFires => (setShowResults false s, [])
  | Focus =>
      (if (0 <? List.length (results s))%nat then setShowResults true s else s, [])
  end.

(** The state reached and everything done along a sequence of events. *)
Fixpoint run (s : State) (events : list Event) : State * list Action :=
  match events with
  | [] => (s, [])
  | e :: rest =>
      let '(s1, done) := step s e in
      let '(s2, later) := run s1 rest in
      (s2, done ++ later)
  end.

(** A request for a query of trimmed length at least 2; any call of the
    search callback. *)
Definition longEnough (a : Action) : Prop :=
  match a with
  | GeocodeRequest q => (2 <= String.length (trim q))%nat
  | OnSearch _ _ => True
  end.

(** The pending debounce timer is always for a query of trimmed length at
    least 2: the effect's own guard. *)
Definition timerGuarded (s : State) : Prop :=
  match debounce s with
  | Some q => tooShort q = false
  | None => True
  end.

End SearchBar.

(** ** The Location Resolver (specification section 4.3)

    Modelled from the spec: the resolver lives in the back end
    (backend/geocoding.py and the route that calls it), which is not among
    the sources.  The geocoding service is a parameter; numbers are kept as
    exact decimals. *)

Module LocationResolver.

(** A decimal number as written: [mantissa / 10 ^ scale]. *)
Record Decimal : Type := {
  mantissa : Z;
  scale : nat
}.

(** The written form of a decimal number: an optional minus sign, the digits
    of the integer part, and the digits after the point (none when there is
    no point). *)
Record Numeral : Type := {
  negative : bool;
  whole : list ascii;
  fraction : list ascii
}.

Definition isDigit (c : ascii) : bool :=
  let n := nat_of_ascii c in (48 <=? n)%nat && (n <=? 57)%nat.

Definition isSpace (c : ascii) : bool :=
  let n := nat_of_ascii c in ((9 <=? n)%nat && (n <=? 13)%nat) || (n =? 32)%nat.

Definition digitsValue (ds : list ascii) : Z :=
  fold_left (fun acc c => 10 * acc + (Z.of_nat (nat_of_ascii c) - 48)) ds 0.

Definition valueOf (n : Numeral) : Decimal :=
  {| mantissa := (if negative n then -1 else 1)
                 * digitsValue (whole n ++ fraction n);
     scale := List.length (fraction n) |}.

Fixpoint takeDigits (s : list ascii) : list ascii * list ascii :=
  match s with
  | c :: rest =>
      if isDigit c then let '(ds, r) := takeDigits rest in (c :: ds, r)
      else ([], s)
  | [] => ([], [])
  end.

Fixpoint skipSpaces (s : list ascii) : list ascii :=
  match s with
  | c :: rest => if isSpace c then skipSpaces rest else s
  | [] => []
  end.

(** An optional minus sign. *)
Definition takeSign (s : list ascii) : bool * list ascii :=
  match s with
  | c :: rest => if Ascii.eqb c "-" then (true, rest) else (false, s)
  | [] => (false, s)
  end.

(** An optional point followed by at least one digit. *)
Definition takeFraction (s : list ascii) : option (list ascii * list ascii) :=
  match s with
  | c :: rest =>
      if Ascii.eqb c "." then
        let '(fs, s') := takeDigits rest in
        match fs with
        | [] => None
        | _ => Some (fs, s')
        end
      else Some ([], s)
  | [] => Some ([], s)
  end.

Definition parseNumeral (s : list ascii) : option (Numeral * list ascii) :=
  let '(neg, s1) := takeSign s in
  let '(ds, s2) := takeDigits s1 in
  match ds with
  | [] => None
  | _ =>
      match takeFraction s2 with
      | Some (fs, s3) =>
          Some ({| negative := neg; whole := ds; fraction := fs |}, s3)
      | None => None
      end
  end.

(** A comma and/or white space: white space, optionally a comma, white
    space, at least one character in all. *)
Definition parseSeparator (s : list ascii) : option (list ascii) :=
  match s with
  | c :: rest =>
      if isSpace c then
        match skipSpaces rest with
        | c' :: rest' =>
            if Ascii.eqb c' "," then Some (skipSpaces rest')
            else Some (c' :: rest')
        | [] => Some []
        end
      else if Ascii.eqb c "," then Some (skipSpaces rest)
      else None
  | [] => None
  end.

(** Modelled from the spec: the pattern of step 1 of the resolver (absent
    back end), two decimal numbers separated by a comma and/or white space,
    and nothing else. *)
Definition matchCoordinates (query : string) : option (Decimal * Decimal) :=
  match parseNumeral (list_ascii_of_string query) with
  | Some (a, s1) =>
      match parseSeparator s1 with
      | Some s2 =>
          match parseNumeral s2 with
          | Some (b, []) => Some (valueOf a, valueOf b)
          | _ => None
          end
      | None => None
      end
  | None => None
  end.

(** [lo <= d <= hi] for integer bounds. *)
Definition within (lo hi : Z) (d : Decimal) : bool :=
  (lo * 10 ^ Z.of_nat (scale d) <=? mantissa d)
  && (mantissa d <=? hi * 10 ^ Z.of_nat (scale d)).

Definition validLatitude : Decimal -> bool := within (-90) 90.
Definition validLongitude : Decimal -> bool := within (-180) 180.

Record LocationCandidate : Type := {
  latitude : Decimal;
  longitude : Decimal;
  display_name : string;
  importance : Decimal;
  kind : option string
}.

Inductive Resolution : Type :=
| Coordinates (lat lon : Decimal)
| Candidates (ranked : list LocationCandidate)
| LocationNotFoundError.

(** [a <= b] on decimals, by cross-multiplication. *)
Definition leDecimal (a b : Decimal) : bool :=
  mantissa a * 10 ^ Z.of_nat (scale b) <=? mantissa b * 10 ^ Z.of_nat (scale a).

Fixpoint insertByImportance (c : LocationCandidate) (l : list LocationCandidate)
  : list LocationCandidate :=
  match l with
  | [] => [c]
  | d :: rest =>
      if leDecimal (importance c) (importance d)
      then d :: insertByImportance c rest
      else c :: l
  end.

(** Candidates sorted by descending importance (stable). *)
Definition rank (l : list LocationCandidate) : list LocationCandidate :=
  fold_right insertByImportance [] l.

(** Modelled from the spec: steps 2 and 3 of the absent resolver, what the
    geocoding service's answer becomes. *)
Definition fromCandidates (preferCoordinates : bool)
    (found : list LocationCandidate) : Resolution :=
  match rank found with
  | [] => LocationNotFoundError
  | [c] => if preferCoordinates then Coordinates (latitude c) (longitude c)
           else Candidates [c]
  | ranked => Candidates ranked
  end.

(** Modelled from the spec: [resolve(query)] of the absent back end, steps 1
    to 3; its result and the queries it sent to the geocoding service, in
    order. *)
Definition resolve (geocode : string -> list LocationCandidate)
    (preferCoordinates : bool) (query : string) : Resolution * list string :=
  match matchCoordinates query with
  | Some (lat, lon) =>
      if validLatitude lat && validLongitude lon
      then (Coordinates lat lon, [])
      else (fromCandidates preferCoordinates (geocode query), [query])
  | None => (fromCandidates preferCoordinates (geocode query), [query])
  end.

(** The strings of the claim: a numeral, a separator, a numeral. *)
Definition showSign (neg : bool) : list ascii :=
  if neg then ["-"%char] else [].

Definition showFraction (fs : list ascii) : list ascii :=
  match fs with
  | [] => []
  | _ => "."%char :: fs
  end.

Definition showNumeral (n : Numeral) : list ascii :=
  showSign (negative n) ++ whole n ++ showFraction (fraction n).

Definition wellFormed (n : Numeral) : Prop :=
  whole n <> [] /\ Forall (fun c => isDigit c = true) (whole n)
  /\ Forall (fun c => isDigit c = true) (fraction n).

Inductive Separator : list ascii -> Prop :=
| separator_spaces ws :
    ws <> [] -> Forall (fun c => isSpace c = true) ws -> Separator ws
| separator_comma ws1 ws2 :
    Forall (fun c => isSpace c = true) ws1 ->
    Forall (fun c => isSpace c = true) ws2 ->
    Separator (ws1 ++ ","%char :: ws2).

Definition coordinateQuery (a : Numeral) (sep : list ascii) (b : Numeral)
  : string :=
  string_of_list_ascii (showNumeral a ++ sep ++ showNumeral b).

(** What a numeral starts with: a digit or the minus sign. *)
Definition startsNumeral (s : list ascii) : Prop :=
  match s with
  | c :: _ => isDigit c = true \/ c = "-"%char
  | [] => False
  end.

(** What may follow a numeral: nothing, a white space or a comma. *)
Definition endsNumeral (s : list ascii) : Prop :=
  match s with
  | c :: _ => isSpace c = true \/ c = ","%char
  | [] => True
  end.

End LocationResolver.

(** ** Sample hosts, series, responses and queries *)

Module Samples.

Import DateFns WeatherCharts Js.

(** A host one hour east of UTC, and a host at UTC. *)
Definition stockholm : Host :=
  {| utcOffsetMinutes := 60; clockMs := 1705320000000; locale := "sv-SE" |}.

Definition greenwich : Host :=
  {| utcOffsetMinutes := 0; clockMs := 0; locale := "en-GB" |}.

Definition numberOf (n : nat) : float :=
  PrimFloat.of_uint63 (Uint63.of_Z (Z.of_nat n)).

(** Hour [i] counted from 2024-01-15T00:00:00, written with the zone
    designator [designator] (empty for none). *)
Definition hourly48 (designator : string) (i : nat) : Types.TimeSeriesPoint :=
  {| Types.timestamp :=
       String.concat ""
         ["2024-01-"; addLeadingZeros (Z.of_nat (15 + i / 24)) 2; "T";
          addLeadingZeros (Z.of_nat (i mod 24)) 2; ":00:00"; designator];
     Types.cloud_cover_pct := numberOf i;
     Types.lightning_prob_pct := numberOf (i mod 5) |}.

(** 48 hourly points over 15 and 16 January 2024, local wall-clock time. *)
Definition twoDays : list Types.TimeSeriesPoint :=
  map (hourly48 "") (seq 0 48).

(** The same hours given as UTC instants. *)
Definition twoDaysUtc : list Types.TimeSeriesPoint :=
  map (hourly48 "Z") (seq 0 48).

(** Half past eleven in the evening of 31 January, as a UTC instant and as
    an instant written with the offset of a host one hour east of UTC. *)
Definition lateEvening : Types.TimeSeriesPoint :=
  {| Types.timestamp := "2024-01-31T23:30:00Z";
     Types.cloud_cover_pct := 50%float;
     Types.lightning_prob_pct := 10%float |}.

Definition lateEveningLocal : Types.TimeSeriesPoint :=
  {| Types.timestamp := "2024-01-31T23:30:00+01:00";
     Types.cloud_cover_pct := 50%float;
     Types.lightning_prob_pct := 10%float |}.

Definition lateEveningFields : IsoFields :=
  {| year := 2024; month := 1; day := 31; hours := 23; minutes := 30;
     seconds := 0; zone := Some (- (1 * msInHour + 0 * msInMinute)) |}.

(** A point whose timestamp is not a date. *)
Definition unreadable : Types.TimeSeriesPoint :=
  {| Types.timestamp := "n/a";
     Types.cloud_cover_pct := 50%float;
     Types.lightning_prob_pct := 10%float |}.

(** What the two requests of [fetchWeatherByCoords] may settle to. *)
Definition forecast : Value :=
  Object [("latitude", Number 59.5%float); ("longitude", Number 18%float);
          ("time_series", Array [])].

Definition weatherOk : App.Settled :=
  App.Resolved {| App.ok := true; App.json := Normal forecast |}.

Definition patternsUnreachable : App.Settled :=
  App.Rejected (TypeError "Failed to fetch").

Definition patternsUnavailable : App.Settled :=
  App.Resolved {| App.ok := false;
                  App.json := Normal (Object [("detail", Str "Model unavailable")]) |}.

(** A pattern result whose [patterns] field is a text, not an array. *)
Definition patternsAsText : Value :=
  Object [("patterns", Str "unavailable")].

(** Typing "S", then "Sto", then two blanks, the timer firing in between. *)
Definition quietEvents : list SearchBar.Event :=
  [SearchBar.Change "S"; SearchBar.TimerFires; SearchBar.Change "Sto";
   SearchBar.TimerFires; SearchBar.Change "  "].

(** The numerals 59.3 and 18.0, and a geocoding service that finds nothing. *)
Definition latitude59_3 : LocationResolver.Numeral :=
  {| LocationResolver.negative := false;
     LocationResolver.whole := ["5"%char; "9"%char];
     LocationResolver.fraction := ["3"%char] |}.

Definition longitude18_0 : LocationResolver.Numeral :=
  {| LocationResolver.negative := false;
     LocationResolver.whole := ["1"%char; "8"%char];
     LocationResolver.fraction := ["0"%char] |}.

Definition nowhere : string -> list LocationResolver.LocationCandidate :=
  fun _ => [].

End Samples.

(** ** frontend/src/App.tsx (src/unnamed/part_001): [handleSearch] *)

Module AppSearch.

Import Js App.

(** [v.name] with the engine's message for each of [undefined] and [null]. *)
Definition readProperty (v : Value) (name : string) : Completion Value :=
  match v with
  | Undefined =>
      Throw (TypeError ("Cannot read properties of undefined (reading '"
                        ++ name ++ "')"))
  | Null =>
      Throw (TypeError ("Cannot read properties of null (reading '"
                        ++ name ++ "')"))
  | _ => Normal (member v name)
  end.

Section HandleSearch.

(** [String(v)] for a value that is not a string (the message of
    [new Error(v)]); how numbers are printed is left open. *)
Variable toStringOf : Value -> string.

(** The message of [new Error(err.detail || 'Location not found')]. *)
Definition notFoundMessage (detail : Value) : string :=
  if truthy detail then
    match detail with
    | Str s => s
    | _ => toStringOf detail
    end
  else "Location not found".

(** The [else] branch of the [try] block of [handleSearch] (lines 125-137),
    once the by-address request and, when it is sent, the ai-patterns request
    have settled: the state it reaches and the exception that left it. *)
Definition tryByAddress (byAddress ai : Settled) (s : State)
  : State * option JsError :=
  match byAddress with
  | Rejected e => (s, Some e)
  | Resolved res =>
      if negb (ok res) then
        let err := match json res with
                   | Normal v => v
                   | Throw _ => Object []
                   end in
        match readProperty err "detail" with
        | Throw e => (s, Some e)
        | Normal detail => (s, Some (OtherError (notFoundMessage detail)))
        end
      else
        match json res with
        | Throw e => (s, Some e)
        | Normal data =>
            let s1 := setWeatherData data s in
            match readProperty data "latitude" with
            | Throw e => (s1, Some e)
            | Normal _ =>
                match ai with
                | Rejected e => (s1, Some e)
                | Resolved aiRes =>
                    if ok aiRes then
                      match json aiRes with
                      | Throw e => (s1, Some e)
                      | Normal patterns => (setAiPatterns patterns s1, None)
                      end
                    else (setAiPatterns Null s1, None)
                end
            end
        end
  end.

(** [handleSearch(query, selected)] once its requests have settled: with a
    selection [first] and [second] are the weather and ai-patterns requests
    of [fetchWeatherByCoords], without one they are the by-address and
    ai-patterns requests. *)
Definition handleSearch (selected : option Types.LocationResult)
    (first second : Settled) (s : State) : State :=
  let s0 := setError None (setLoading true s) in
  let '(s1, thrown) :=
    match selected with
    | Some _ => (fetchWeatherByCoords first second s0, None)
    | None => tryByAddress first second s0
    end in
  let s2 :=
    match thrown with
    | Some e =>
        setAiPatterns Null (setWeatherData Null (setError (Some (messageOf e)) s1))
    | None => s1
    end in
  setLoading false s2.

End HandleSearch.


(** A request answered with status ok and a body that parses. *)
Definition answered (r : Settled) (body : Value) : Prop :=
  r = Resolved {| ok := true; json := Normal body |}.

(** A request answered with an error status. *)
Definition refused (r : Settled) : Prop :=
  exists body, r = Resolved {| ok := false; json := body |}.


End AppSearch.

(** ** Vocabulary of the further properties *)

Module GroupingSpec.

Import DateFns WeatherCharts AggregationSpec.

(** The number of values [grouped] holds in its [cloud] arrays. *)
Definition cloudCount (g : Grouped) : nat :=
  list_sum (map (fun kv => List.length (cloud (snd kv))) g).

(** The two arrays of every bucket have the same length. *)
Definition paired (g : Grouped) : Prop :=
  Forall (fun kv => List.length (cloud (snd kv))
                    = List.length (lightning (snd kv))) g.


End GroupingSpec.

Module PanelSpec.

Import Js AIPatternsPanel.

(** A pattern as the back end sends it: an object whose [name] is a string. *)
Definition namedPattern (p : Value) (name : string) : Prop :=
  exists fields, p = Object fields /\ getOwn fields "name" = Str name.

(** The card the component draws for pattern [p] named [name]. *)
Definition cardOf (p : Value) (name : string) : PatternCard :=
  {| key := Str name;
     displayedName := replaceUnderscores name;
     probability := member p "probability" |}.

(** An element whose [name] is not a string. *)
Definition unnamed (p : Value) : Prop :=
  forall s, optionalGet p "name" <> Str s.

(** The object [v] passes the guard of line 19. *)
Definition passesGuard (v : Value) : Prop :=
  truthy (optionalGet (optionalGet v "patterns") "length") = true.

End PanelSpec.

Module SearchBarSpec.

Import SearchBar.

(** The pending timer, if any, was set for the text now in the input, and
    that text is long enough to be searched. *)
Definition linked (s : State) : Prop :=
  match debounce s with
  | Some q => q = query s /\ tooShort q = false
  | None => True
  end.

(** The suggestion requests among what was done. *)
Fixpoint requests (done : list Action) : nat :=
  match done with
  | [] => 0
  | GeocodeRequest _ :: rest => S (requests rest)
  | OnSearch _ _ :: rest => requests rest
  end.

(** The firings of the debounce timer among the events. *)
Fixpoint firings (events : list Event) : nat :=
  match events with
  | [] => 0
  | TimerFires :: rest => S (firings rest)
  | _ :: rest => firings rest
  end.

(** Every code unit of the text is white space. *)
Definition blank (text : string) : bool :=
  forallb isWhiteSpace (list_ascii_of_string text).

End SearchBarSpec.

(** ** Further samples *)

Module MoreSamples.

Import DateFns WeatherCharts Js.

(** The value a completion returned ([[]] when it threw). *)
Definition returned {A : Type} (c : Completion (list A)) : list A :=
  match c with
  | Normal v => v
  | Throw _ => []
  end.

(** A pattern result with two named patterns, and one whose only pattern
    has no name. *)
Definition patternResult : Value :=
  Object [("patterns",
           Array [Object [("name", Str "stable_atmosphere");
                          ("probability", Number 0.75%float)];
                  Object [("name", Str "convective_risk");
                          ("probability", Number 0.25%float)]]);
          ("convective_risk", Number 0.25%float);
          ("summary", Str "Stable conditions")].

Definition patternItems : list Value :=
  [Object [("name", Str "stable_atmosphere");
           ("probability", Number 0.75%float)];
   Object [("name", Str "convective_risk");
           ("probability", Number 0.25%float)]].

(** The panel the component draws for [patternResult]. *)
Definition renderedPanel : AIPatternsPanel.Panel :=
  {| AIPatternsPanel.summary := Str "Stable conditions";
     AIPatternsPanel.convective_risk := Number 0.25%float;
     AIPatternsPanel.cards :=
       [ {| AIPatternsPanel.key := Str "stable_atmosphere";
            AIPatternsPanel.displayedName := "stable atmosphere";
            AIPatternsPanel.probability := Number 0.75%float |};
         {| AIPatternsPanel.key := Str "convective_risk";
            AIPatternsPanel.displayedName := "convective risk";
            AIPatternsPanel.probability := Number 0.25%float |} ] |}.

Definition namelessPatterns : Value :=
  Object [("patterns", Array [Object [("probability", Number 0.5%float)]])].

(** Answers of the by-address request: found, and not found with a detail. *)
Definition addressFound : App.Settled :=
  App.Resolved {| App.ok := true; App.json := Normal Samples.forecast |}.

Definition addressUnknown : Completion Value :=
  Normal (Object [("detail", Str "No results for query")]).


(** A printer for values that are not strings. *)
Definition printObject : Value -> string := fun _ => "[object Object]".

Definition typed : SearchBar.State :=
  {| SearchBar.query := "Lund"; SearchBar.results := [];
     SearchBar.showResults := false; SearchBar.selectedResult := None;
     SearchBar.debounce := None |}.

Definition malmo : Types.LocationResult :=
  {| Types.lat := 55.5%float; Types.lon := 13%float;
     Types.display_name := "Malmo, Sweden";
     Types.type := Some "city"; Types.importance := Some 0.75%float |}.

End MoreSamples.

(** * Properties *)

(** ** The calendar arithmetic of the date library *)

Module DateFacts.

Import DateFns DateChecks.

Lemma in_zrange lo n x : lo <= x < lo + n -> In x (zrange lo n).
Proof.
  intros H. unfold zrange. apply in_map_iff.
  exists (Z.to_nat (x - lo)). split; [lia|]. apply in_seq. lia.
Qed.

Lemma tripleEqb_eq a b : tripleEqb a b = true -> a = b.
Proof.
  destruct a as [[a1 a2] a3], b as [[b1 b2] b3]. simpl.
  rewrite !andb_true_iff, !Z.eqb_eq. intros [[-> ->] ->]. reflexivity.
Qed.

Lemma forallb_zrange (f : Z -> bool) lo n :
  forallb f (zrange lo n) = true ->
  forall x, lo <= x < lo + n -> f x = true.
Proof.
  intros H x Hx. rewrite forallb_forall in H. apply H, in_zrange, Hx.
Qed.

Lemma forallb_era (P : Z -> Z -> Z -> bool) :
  forallb (fun y => forallb (fun m => forallb (P y m) (zrange 1 31))
                            (zrange 1 12)) (zrange 0 400) = true ->
  forall y m d, 0 <= y < 400 -> 1 <= m <= 12 -> 1 <= d <= 31 -> P y m d = true.
Proof.
  intros H y m d Hy Hm Hd.
  apply (forallb_zrange _ 0 400) with (x := y) in H; [|lia].
  apply (forallb_zrange _ 1 12) with (x := m) in H; [|lia].
  apply (forallb_zrange _ 1 31) with (x := d) in H; [|lia].
  exact H.
Qed.

(** Every valid date of the years 0 to 399 survives the round trip. *)
Lemma era_checked :
  forallb (fun y => forallb (fun m => forallb (roundTripOk y m) (zrange 1 31))
                            (zrange 1 12)) (zrange 0 400) = true.
Proof. vm_compute. reflexivity. Qed.

Lemma daysInMonth_le y m : daysInMonth y m <= 31.
Proof.
  unfold daysInMonth.
  repeat match goal with |- context [if ?b then _ else _] => destruct b end; lia.
Qed.

Lemma civil_roundtrip_era y m d :
  0 <= y < 400 -> 1 <= m <= 12 -> 1 <= d <= daysInMonth y m ->
  civilFromDays (daysFromCivil y m d) = (y, m, d).
Proof.
  intros Hy Hm Hd. pose proof (daysInMonth_le y m) as Hle.
  pose proof (forallb_era roundTripOk era_checked y m d Hy Hm ltac:(lia)) as H.
  unfold roundTripOk in H.
  replace (d <=? daysInMonth y m) with true in H by (symmetry; apply Z.leb_le; lia).
  apply tripleEqb_eq, H.
Qed.

(** Both conversions commute with a shift by whole 400-year eras. *)
Lemma daysFromCivil_shift y m d k :
  daysFromCivil (y + 400 * k) m d = daysFromCivil y m d + 146097 * k.
Proof.
  unfold daysFromCivil.
  set (y' := if m <=? 2 then y - 1 else y).
  replace (if m <=? 2 then y + 400 * k - 1 else y + 400 * k) with (y' + k * 400)
    by (unfold y'; destruct (m <=? 2); lia).
  rewrite Z.div_add by lia.
  set (era := y' / 400).
  replace (y' + k * 400 - (era + k) * 400) with (y' - era * 400) by lia.
  lia.
Qed.

Lemma civilFromDays_shift z k :
  civilFromDays (z + 146097 * k)
  = let '(y, m, d) := civilFromDays z in (y + 400 * k, m, d).
Proof.
  unfold civilFromDays.
  replace (z + 146097 * k + 719468) with (z + 719468 + k * 146097) by lia.
  rewrite Z.div_add by lia.
  set (era := (z + 719468) / 146097).
  replace (z + 719468 + k * 146097 - (era + k) * 146097)
    with (z + 719468 - era * 146097) by lia.
  set (doe := z + 719468 - era * 146097).
  cbv zeta.
  set (yoe := (doe - doe / 1460 + doe / 36524 - doe / 146096) / 365).
  set (doy := doe - (365 * yoe + yoe / 4 - yoe / 100)).
  set (mp := (5 * doy + 2) / 153).
  destruct ((if mp <? 10 then mp + 3 else mp - 9) <=? 2); f_equal; f_equal; lia.
Qed.

Lemma isLeapYearIndex_mod y : isLeapYearIndex (y mod 400) = isLeapYearIndex y.
Proof.
  unfold isLeapYearIndex.
  replace ((y mod 400) mod 400) with (y mod 400) by (Z.div_mod_to_equations; lia).
  replace ((y mod 400) mod 4) with (y mod 4) by (Z.div_mod_to_equations; lia).
  replace ((y mod 400) mod 100) with (y mod 100) by (Z.div_mod_to_equations; lia).
  reflexivity.
Qed.

Lemma daysInMonth_mod y m : daysInMonth (y mod 400) m = daysInMonth y m.
Proof. unfold daysInMonth. now rewrite isLeapYearIndex_mod. Qed.

(** The civil date of the day number of a valid date is that date. *)
Theorem civil_roundtrip y m d :
  1 <= m <= 12 -> 1 <= d <= daysInMonth y m ->
  civilFromDays (daysFromCivil y m d) = (y, m, d).
Proof.
  intros Hm Hd.
  rewrite (Z.div_mod y 400) at 1 by lia.
  rewrite (Z.add_comm (400 * (y / 400))), daysFromCivil_shift, civilFromDays_shift.
  rewrite civil_roundtrip_era.
  - f_equal. f_equal. rewrite (Z.div_mod y 400) at 3 by lia. lia.
  - apply Z.mod_pos_bound. lia.
  - exact Hm.
  - now rewrite daysInMonth_mod.
Qed.

(** Parsed digits are printed back as the characters they were read from. *)
Lemma digit_inv c x : digit c = Some x -> 0 <= x <= 9 /\ c = digitChar x.
Proof.
  unfold digit, digitChar.
  destruct ((48 <=? Z.of_nat (nat_of_ascii c)) && (Z.of_nat (nat_of_ascii c) <=? 57)) eqn:E;
    [|discriminate].
  intros H. assert (Hx : x = Z.of_nat (nat_of_ascii c) - 48) by congruence.
  clear H. subst x. apply andb_true_iff in E as [E1 E2].
  apply Z.leb_le in E1, E2. split; [lia|].
  replace (48 + Z.to_nat (Z.of_nat (nat_of_ascii c) - 48))%nat with (nat_of_ascii c) by lia.
  symmetry. apply ascii_nat_embedding.
Qed.

Lemma digits2_inv a b n :
  digits2 a b = Some n ->
  exists x y, 0 <= x <= 9 /\ 0 <= y <= 9 /\ n = 10 * x + y
              /\ a = digitChar x /\ b = digitChar y.
Proof.
  unfold digits2. destruct (digit a) as [x|] eqn:Ea; [|discriminate].
  destruct (digit b) as [y|] eqn:Eb; [|discriminate].
  intros H. assert (Hn : n = 10 * x + y) by congruence. clear H.
  apply digit_inv in Ea as [Hx ->], Eb as [Hy ->].
  exists x, y. do 2 (split; [lia|]). split; [exact Hn|]. split; reflexivity.
Qed.

Lemma digits4_inv a b c d n :
  digits4 a b c d = Some n ->
  exists w x y z, 0 <= w <= 9 /\ 0 <= x <= 9 /\ 0 <= y <= 9 /\ 0 <= z <= 9
     /\ n = 1000 * w + 100 * x + 10 * y + z
     /\ a = digitChar w /\ b = digitChar x /\ c = digitChar y /\ d = digitChar z.
Proof.
  unfold digits4. destruct (digits2 a b) as [p|] eqn:E1; [|discriminate].
  destruct (digits2 c d) as [q|] eqn:E2; [|discriminate].
  intros H. assert (Hn : n = 100 * p + q) by congruence. clear H.
  apply digits2_inv in E1 as (w & x & Hw & Hx & -> & -> & ->).
  apply digits2_inv in E2 as (y & z & Hy & Hz & -> & -> & ->).
  exists w, x, y, z. do 5 (split; [lia|]). do 3 (split; [reflexivity|]). reflexivity.
Qed.

Lemma two_checked : forallb two_ok (zrange 0 100) = true.
Proof. vm_compute. reflexivity. Qed.

Lemma four_checked : forallb four_ok (zrange 0 10000) = true.
Proof. vm_compute. reflexivity. Qed.

Lemma addLeadingZeros_2 a b n :
  digits2 a b = Some n -> addLeadingZeros n 2 = String a (String b "").
Proof.
  intros H. apply digits2_inv in H as (x & y & Hx & Hy & -> & -> & ->).
  pose proof (forallb_zrange two_ok 0 100 two_checked (10 * x + y) ltac:(lia)) as E.
  apply String.eqb_eq in E. rewrite E.
  replace ((10 * x + y) / 10) with x by (Z.div_mod_to_equations; lia).
  replace ((10 * x + y) mod 10) with y by (Z.div_mod_to_equations; lia).
  reflexivity.
Qed.

Lemma addLeadingZeros_4 a b c d n :
  digits4 a b c d = Some n ->
  addLeadingZeros n 4 = String a (String b (String c (String d ""))).
Proof.
  intros H.
  apply digits4_inv in H as (w & x & y & z & Hw & Hx & Hy & Hz & -> & -> & -> & -> & ->).
  pose proof (forallb_zrange four_ok 0 10000 four_checked
                (1000 * w + 100 * x + 10 * y + z) ltac:(lia)) as E.
  apply String.eqb_eq in E. rewrite E.
  replace ((1000 * w + 100 * x + 10 * y + z) / 1000) with w
    by (Z.div_mod_to_equations; lia).
  replace (((1000 * w + 100 * x + 10 * y + z) / 100) mod 10) with x
    by (Z.div_mod_to_equations; lia).
  replace (((1000 * w + 100 * x + 10 * y + z) / 10) mod 10) with y
    by (Z.div_mod_to_equations; lia).
  replace ((1000 * w + 100 * x + 10 * y + z) mod 10) with z
    by (Z.div_mod_to_equations; lia).
  reflexivity.
Qed.

Lemma digits2_nonneg a b n : digits2 a b = Some n -> 0 <= n.
Proof.
  intros H. apply digits2_inv in H as (x & y & Hx & Hy & -> & _). lia.
Qed.

Lemma parseTime_nonneg t h mi sec z :
  parseTime t = Some (h, mi, sec, z) -> 0 <= h /\ 0 <= mi /\ 0 <= sec.
Proof.
  unfold parseTime.
  destruct t as [|h1 [|h2 [|c1 [|m1 [|m2 rest]]]]]; try discriminate.
  destruct (Ascii.eqb c1 ":"); [|discriminate].
  destruct (digits2 h1 h2) as [h'|] eqn:Eh; [|discriminate].
  destruct (digits2 m1 m2) as [m'|] eqn:Em; [|discriminate].
  apply digits2_nonneg in Eh, Em.
  destruct rest as [|c2 [|s1 [|s2 rest']]].
  1-3: destruct (parseTimezone _); [|discriminate]; intros [= <- <- <- _]; lia.
  destruct (Ascii.eqb c2 ":").
  - destruct (digits2 s1 s2) as [s'|] eqn:Es; [|discriminate].
    apply digits2_nonneg in Es.
    destruct (parseTimezone rest'); [|discriminate]. intros [= <- <- <- _]. lia.
  - destruct (parseTimezone _); [|discriminate]. intros [= <- <- <- _]. lia.
Qed.

(** The shape of a string that [splitDateString] accepts. *)
Lemma splitDateString_inv s f :
  splitDateString s = Some f ->
  exists y1 y2 y3 y4 m1 m2 d1 d2 rest,
    s = y1 :: y2 :: y3 :: y4 :: "-"%char :: m1 :: m2 :: "-"%char :: d1 :: d2 :: rest
    /\ digits4 y1 y2 y3 y4 = Some (year f)
    /\ digits2 m1 m2 = Some (month f)
    /\ digits2 d1 d2 = Some (day f)
    /\ 0 <= hours f /\ 0 <= minutes f /\ 0 <= seconds f.
Proof.
  unfold splitDateString.
  destruct s as [|y1 [|y2 [|y3 [|y4 [|c1 [|m1 [|m2 [|c2 [|d1 [|d2 rest]]]]]]]]]];
    try discriminate.
  destruct (Ascii.eqb c1 "-") eqn:E1; [|discriminate].
  destruct (Ascii.eqb c2 "-") eqn:E2; [|discriminate]. simpl.
  apply Ascii.eqb_eq in E1, E2. subst c1 c2.
  destruct (digits4 y1 y2 y3 y4) as [y|] eqn:Ey; [|discriminate].
  destruct (digits2 m1 m2) as [m|] eqn:Em; [|discriminate].
  destruct (digits2 d1 d2) as [d|] eqn:Ed; [|discriminate].
  intros H. exists y1, y2, y3, y4, m1, m2, d1, d2, rest.
  split; [reflexivity|].
  destruct rest as [|sep t].
  - injection H as <-. simpl. do 3 (split; [assumption|]). lia.
  - destruct (isDateTimeDelimiter sep); [|discriminate].
    destruct (parseTime t) as [[[[h mi] sec] z]|] eqn:Et; [|discriminate].
    apply parseTime_nonneg in Et. injection H as <-. simpl.
    do 3 (split; [assumption|]). lia.
Qed.

(** Without zone conversion the local reading of the parsed instant is made
    of the written fields. *)
Lemma localMs_of_fields host f :
  zone f = None \/ zone f = Some (- (utcOffsetMinutes host * msInMinute)) ->
  localMs host (timeValue host f)
  = daysFromCivil (year f) (month f) (day f) * msInDay
    + (hours f * msInHour + minutes f * msInMinute + seconds f * 1000).
Proof.
  unfold localMs, timeValue. intros [-> | ->]; lia.
Qed.

Lemma validateTime_bound f :
  validateTime f = true -> hours f <> 24 ->
  0 <= hours f -> 0 <= minutes f -> 0 <= seconds f ->
  0 <= hours f * msInHour + minutes f * msInMinute + seconds f * 1000 < msInDay.
Proof.
  unfold validateTime, msInHour, msInMinute, msInDay. intros H H24 Hh Hm Hs.
  destruct (hours f =? 24) eqn:E; [apply Z.eqb_eq in E; contradiction|].
  apply andb_true_iff in H as [H H3]. apply andb_true_iff in H as [H1 H2].
  apply Z.ltb_lt in H1, H2, H3. lia.
Qed.

End DateFacts.

(** ** Aggregation *)

Module AggregationFacts.

Import DateFns DateChecks DateFacts WeatherCharts AggregationSpec.

Lemma bucketKey_parses host agg p :
  parses host p -> bucketKey host agg p = Normal (keyOf host agg p).
Proof.
  unfold parses, keyOf, bucketKey. intros Hp.
  destruct (parseISO host (Types.timestamp p)) as [|t]; [congruence|].
  destruct agg; reflexivity.
Qed.

Lemma bucketKey_invalid host agg p :
  ~ parses host p -> exists e, bucketKey host agg p = Throw e.
Proof.
  unfold parses, bucketKey. intros Hp.
  destruct (parseISO host (Types.timestamp p)) as [|t].
  - destruct agg; eexists; reflexivity.
  - exfalso. apply Hp. discriminate.
Qed.

(** *** Facts about first-seen representatives *)

Section FirstSeenFacts.

Context {A : Type} (key : A -> string).

Lemma firstSeenBy_fresh seen l a :
  In a (firstSeenBy key seen l) -> seenIn seen (key a) = false.
Proof.
  revert seen. induction l as [|p r IH]; intros seen; simpl; [tauto|].
  destruct (seenIn seen (key p)) eqn:E; [apply IH|].
  intros [->|H]; [exact E|].
  apply IH in H. unfold seenIn in *. rewrite existsb_app in H.
  now apply orb_false_iff in H.
Qed.

Lemma firstSeenBy_subsequence seen l :
  Subsequence (firstSeenBy key seen l) l.
Proof.
  revert seen. induction l as [|p r IH]; intros seen; simpl.
  - constructor.
  - destruct (seenIn seen (key p)); constructor; apply IH.
Qed.

Lemma firstSeenBy_NoDup seen l :
  NoDup (map key (firstSeenBy key seen l)).
Proof.
  revert seen. induction l as [|p r IH]; intros seen; simpl; [constructor|].
  destruct (seenIn seen (key p)); [apply IH|].
  simpl. constructor; [|apply IH].
  intros Hin. apply in_map_iff in Hin as [a [Hk Ha]].
  apply firstSeenBy_fresh in Ha. unfold seenIn in Ha.
  rewrite existsb_app in Ha. apply orb_false_iff in Ha as [_ Ha].
  simpl in Ha. rewrite Hk, String.eqb_refl in Ha. discriminate.
Qed.

Lemma seenIn_true seen k : seenIn seen k = true <-> In k seen.
Proof.
  unfold seenIn. rewrite existsb_exists. split.
  - intros [k' [Hin E]]. apply String.eqb_eq in E. now subst.
  - intros H. exists k. split; [exact H|apply String.eqb_refl].
Qed.

Lemma firstSeenBy_covers seen l p :
  In p l -> In (key p) seen \/ In (key p) (map key (firstSeenBy key seen l)).
Proof.
  revert seen. induction l as [|a r IH]; intros seen; simpl; [tauto|].
  intros [->|Hin].
  - destruct (seenIn seen (key p)) eqn:E.
    + left. now apply seenIn_true.
    + right. now left.
  - destruct (seenIn seen (key a)) eqn:E.
    + apply IH, Hin.
    + destruct (IH (seen ++ [key a]) Hin) as [H|H].
      * apply in_app_or in H as [H|[H|[]]]; [now left|].
        right. left. exact H.
      * right. right. exact H.
Qed.

Lemma firstSeenBy_first seen l rep :
  In rep (firstSeenBy key seen l) ->
  exists l1 l2, l = l1 ++ rep :: l2 /\ Forall (fun q => key q <> key rep) l1.
Proof.
  revert seen. induction l as [|a r IH]; intros seen; simpl; [tauto|].
  destruct (seenIn seen (key a)) eqn:E.
  - intros H. pose proof (firstSeenBy_fresh _ _ _ H) as Hf.
    destruct (IH _ H) as [l1 [l2 [-> Hl1]]].
    exists (a :: l1), l2. split; [reflexivity|].
    constructor; [|exact Hl1]. intros Heq. congruence.
  - intros [->|H].
    + exists [], r. split; [reflexivity|constructor].
    + pose proof (firstSeenBy_fresh _ _ _ H) as Hf.
      destruct (IH _ H) as [l1 [l2 [-> Hl1]]].
      exists (a :: l1), l2. split; [reflexivity|].
      constructor; [|exact Hl1]. intros Heq.
      unfold seenIn in Hf. rewrite existsb_app in Hf.
      apply orb_false_iff in Hf as [_ Hf]. simpl in Hf.
      rewrite Heq, String.eqb_refl in Hf. discriminate.
Qed.







End FirstSeenFacts.

Lemma Subsequence_In {A : Type} (reps l : list A) a :
  Subsequence reps l -> In a reps -> In a l.
Proof.
  induction 1 as [|b reps l Hs IH|b reps l Hs IH]; simpl; intros Hin;
    [tauto|right; auto|].
  destruct Hin; [now left|right; auto].
Qed.

Lemma Subsequence_sorted {A : Type} (R : A -> A -> Prop) (reps l : list A) :
  Subsequence reps l -> Sorted.StronglySorted R l -> Sorted.StronglySorted R reps.
Proof.
  induction 1 as [|a reps l Hs IH|a reps l Hs IH]; intros Hl.
  - constructor.
  - inversion Hl; subst. auto.
  - inversion Hl as [|? ? Hl' Ha]; subst. constructor; [auto|].
    rewrite Forall_forall in *. intros x Hx. apply Ha.
    eapply Subsequence_In; eassumption.
Qed.

(** *** The grouping loop in closed form *)

Section Grouping.

Variable host : Host.
Variable agg : AggregationType.

Local Abbreviation key := (keyOf host agg).
Local Abbreviation step := (groupStep host agg).
Local Abbreviation ext := (extend host agg).
Local Abbreviation opened := (fresh host agg).

Lemma groupPoint_parses g p :
  parses host p -> groupPoint host agg g p = Normal (step g p).
Proof.
  intros Hp. unfold groupPoint. rewrite (bucketKey_parses _ _ _ Hp). reflexivity.
Qed.

Lemma forEachM_groupPoint l : forall g,
  Forall (parses host) l ->
  forEachM (groupPoint host agg) l g = Normal (fold_left step l g).
Proof.
  induction l as [|p r IH]; intros g Hl; simpl; [reflexivity|].
  inversion Hl as [|? ? Hp Hr]; subst.
  rewrite (groupPoint_parses _ _ Hp). simpl. apply IH, Hr.
Qed.

Lemma hasKey_seenIn g k : hasKey g k = seenIn (map fst g) k.
Proof.
  unfold hasKey, seenIn. induction g as [|kv g IH]; simpl; [reflexivity|].
  now rewrite IH.
Qed.

Lemma seenIn_app seen k k' :
  seenIn (seen ++ [k]) k' = seenIn seen k' || String.eqb k k'.
Proof.
  unfold seenIn. rewrite existsb_app. simpl. now rewrite orb_false_r.
Qed.

Lemma pushInto_absent g k c l :
  hasKey g k = false -> pushInto g k c l = g.
Proof.
  unfold hasKey, pushInto. induction g as [|kv g IH]; simpl; [reflexivity|].
  intros H. apply orb_false_iff in H as [H1 H2].
  rewrite H1, (IH H2). reflexivity.
Qed.

Lemma extend_cons_other p r kv :
  String.eqb (key p) (fst kv) = false -> ext (p :: r) kv = ext r kv.
Proof.
  intros H. unfold extend, sharing. simpl. now rewrite H.
Qed.

Lemma extend_pushed p r g :
  map (ext r)
      (pushInto g (key p) (Types.cloud_cover_pct p) (Types.lightning_prob_pct p))
  = map (ext (p :: r)) g.
Proof.
  unfold pushInto. rewrite map_map. apply map_ext. intros [k b].
  unfold extend, sharing. simpl.
  rewrite (String.eqb_sym (key p) k).
  destruct (String.eqb k (key p)); simpl; [|reflexivity].
  now rewrite <- !app_assoc.
Qed.

Lemma extend_unseen p r g :
  hasKey g (key p) = false -> map (ext (p :: r)) g = map (ext r) g.
Proof.
  unfold hasKey. induction g as [|kv g IH]; simpl; [reflexivity|].
  intros H. apply orb_false_iff in H as [H1 H2].
  rewrite (IH H2). f_equal. apply extend_cons_other.
  now rewrite String.eqb_sym.
Qed.

Lemma seenIn_eqb seen k k' :
  seenIn seen k = true -> seenIn seen k' = false -> String.eqb k k' = false.
Proof.
  intros H1 H2. destruct (String.eqb k k') eqn:E; [|reflexivity].
  apply String.eqb_eq in E. subst. congruence.
Qed.

Lemma fresh_cons_other p r seen a :
  seenIn seen (key p) = true -> In a (firstSeenBy key seen r) ->
  opened (p :: r) a = opened r a.
Proof.
  intros Hp H. apply firstSeenBy_fresh in H.
  unfold fresh. apply extend_cons_other. simpl.
  eapply seenIn_eqb; eassumption.
Qed.

Lemma map_fst_pushInto g k c l : map fst (pushInto g k c l) = map fst g.
Proof.
  unfold pushInto. rewrite map_map. apply map_ext.
  intros kv. now destruct (String.eqb (fst kv) k).
Qed.

(** The object the [forEach] leaves behind, in closed form: the buckets it
    started from, extended, then one bucket per new key in first-seen order. *)
Lemma fold_groupStep l : forall g,
  fold_left step l g
  = map (ext l) g ++ map (opened l) (firstSeenBy key (map fst g) l).
Proof.
  induction l as [|p r IH]; intros g; simpl.
  - rewrite app_nil_r. symmetry. rewrite <- (map_id g) at 2.
    apply map_ext. intros [k [c li]]. unfold extend, sharing. simpl.
    now rewrite !app_nil_r.
  - rewrite IH. unfold groupStep. rewrite <- hasKey_seenIn.
    rewrite map_fst_pushInto, extend_pushed.
    destruct (hasKey g (key p)) eqn:E; simpl.
    + f_equal. apply map_ext_in. intros a Ha. symmetry.
      eapply fresh_cons_other; [|exact Ha]. now rewrite <- hasKey_seenIn.
    + rewrite !map_app. simpl.
      rewrite (extend_unseen _ _ _ E), <- app_assoc. simpl.
      f_equal. f_equal. apply map_ext_in. intros a Ha.
      symmetry. eapply fresh_cons_other; [|exact Ha].
      rewrite seenIn_app, String.eqb_refl. apply orb_true_r.
Qed.

Lemma bucketPoint_fresh l p :
  bucketPoint (opened l p) = specBucket host agg l (key p).
Proof.
  unfold bucketPoint, fresh, extend, specBucket, mean, meanOf, sum, lengthOf.
  simpl. now rewrite !length_map.
Qed.

(** Daily and monthly aggregation of a series that parses, in closed form. *)
Lemma groupSeries_closed series :
  Forall (parses host) series ->
  groupSeries host agg series
  = Normal (map (opened series) (firstSeenBy key [] series)).
Proof.
  intros H. unfold groupSeries. rewrite (forEachM_groupPoint _ _ H).
  now rewrite fold_groupStep.
Qed.

End Grouping.

(** *** The two branches of [aggregateData] on a series that parses *)

Lemma hourlyPoint_parses host p :
  parses host p ->
  exists q, hourlyPoint host p = Normal q /\ carries q p.
Proof.
  unfold parses, hourlyPoint. intros Hp.
  destruct (parseISO host (Types.timestamp p)) as [|t]; [congruence|].
  simpl. eexists. split; [reflexivity|]. repeat split.
Qed.

Lemma mapM_hourlyPoint host l :
  Forall (parses host) l ->
  exists out, mapM (hourlyPoint host) l = Normal out /\ Forall2 carries out l.
Proof.
  induction 1 as [|p r Hp _ [out [E F]]]; simpl.
  - exists []. split; [reflexivity|constructor].
  - destruct (hourlyPoint_parses _ _ Hp) as [q [Eq Hq]].
    rewrite Eq, E. simpl. exists (q :: out). split; [reflexivity|].
    now constructor.
Qed.

Lemma aggregateData_bucketed host series agg :
  (24 < List.length series)%nat -> agg <> hourly ->
  Forall (parses host) series ->
  aggregateData host series agg
  = Normal (map (fun p => specBucket host agg series (keyOf host agg p))
                (firstSeenBy (keyOf host agg) [] series)).
Proof.
  intros Hlen Hagg Hp. unfold aggregateData.
  replace (isHourly agg) with false by (destruct agg; simpl; congruence).
  replace (Z.of_nat (List.length series) <=? 24) with false
    by (symmetry; apply Z.leb_gt; lia).
  simpl. rewrite (groupSeries_closed _ _ _ Hp). simpl.
  rewrite map_map. f_equal. apply map_ext. intros p. apply bucketPoint_fresh.
Qed.

Lemma aggregateData_short host series agg :
  (List.length series <= 24)%nat ->
  aggregateData host series agg = mapM (hourlyPoint host) series.
Proof.
  intros Hlen. unfold aggregateData.
  replace (Z.of_nat (List.length series) <=? 24) with true
    by (symmetry; apply Z.leb_le; lia).
  now rewrite orb_true_r.
Qed.

Lemma forallb_parses host l :
  forallb (parsesb host) l = true -> Forall (parses host) l.
Proof.
  intros H. apply Forall_forall. intros p Hin.
  rewrite forallb_forall in H. specialize (H p Hin).
  unfold parsesb, parses in *.
  destruct (parseISO host (Types.timestamp p)); [discriminate|discriminate].
Qed.

Lemma hourlyPoint_normal host p q :
  hourlyPoint host p = Normal q -> parses host p /\ carries q p.
Proof.
  unfold hourlyPoint, parses. 
  destruct (parseISO host (Types.timestamp p)) as [|t]; simpl; [discriminate|].
  intros [= <-]. split; [discriminate|]. repeat split.
Qed.

Lemma mapM_hourlyPoint_normal host l : forall out,
  mapM (hourlyPoint host) l = Normal out ->
  Forall (parses host) l /\ Forall2 carries out l.
Proof.
  induction l as [|p r IH]; simpl; intros out E.
  - injection E as <-. split; constructor.
  - destruct (hourlyPoint host p) as [q|] eqn:Eq; simpl in E; [|discriminate].
    destruct (mapM (hourlyPoint host) r) as [qs|] eqn:Er; simpl in E;
      [|discriminate].
    injection E as <-. destruct (hourlyPoint_normal _ _ _ Eq) as [Hp Hq].
    destruct (IH qs eq_refl) as [Hr Hqs]. split; constructor; assumption.
Qed.

Lemma groupPoint_normal host agg g p g' :
  groupPoint host agg g p = Normal g' -> parses host p.
Proof.
  unfold groupPoint, bucketKey, parses.
  destruct (parseISO host (Types.timestamp p)) as [|t]; [|discriminate].
  destruct agg; discriminate.
Qed.

Lemma forEachM_groupPoint_normal host agg l : forall g g',
  forEachM (groupPoint host agg) l g = Normal g' -> Forall (parses host) l.
Proof.
  induction l as [|p r IH]; simpl; intros g g' E; [constructor|].
  destruct (groupPoint host agg g p) as [g1|] eqn:Ep; simpl in E; [|discriminate].
  constructor; [eapply groupPoint_normal, Ep|eapply IH, E].
Qed.

(** A run that returns has read every timestamp. *)
Lemma aggregateData_normal_parses host series agg out :
  aggregateData host series agg = Normal out -> Forall (parses host) series.
Proof.
  unfold aggregateData.
  destruct (isHourly agg || (Z.of_nat (List.length series) <=? 24)).
  - intros E. apply (mapM_hourlyPoint_normal _ _ _ E).
  - unfold groupSeries.
    destruct (forEachM (groupPoint host agg) series []) as [g|] eqn:E;
      [|discriminate].
    intros _. eapply forEachM_groupPoint_normal, E.
Qed.

(** *** The claims about aggregation *)



(** The 48 hourly points of 15 and 16 January 2024, aggregated daily. *)
Example two_days_daily :
  aggregateData Samples.stockholm Samples.twoDays daily
  = Normal [ {| label := "2024-01-15"; cloud_cover_pct := 11.5%float;
                lightning_prob_pct := meanOf Types.lightning_prob_pct
                                        (firstn 24 Samples.twoDays);
                timestamp := "2024-01-15" |};
             {| label := "2024-01-16"; cloud_cover_pct := 35.5%float;
                lightning_prob_pct := meanOf Types.lightning_prob_pct
                                        (skipn 24 Samples.twoDays);
                timestamp := "2024-01-16" |} ].
Proof. vm_compute. reflexivity. Qed.

(** C2. On a series of at most 24 points every resolution gives what the
    hourly resolution gives.  Aggregation returns whenever the timestamps
    parse, and every sequence it returns has the hourly shape: one output
    point per input point, in input order, carrying the point's timestamp
    and its two values unchanged. *)
Theorem short_series_keep_hourly_shape host series agg :
  (List.length series <= 24)%nat ->
  aggregateData host series agg = aggregateData host series hourly
  /\ (Forall (parses host) series ->
      exists out, aggregateData host series agg = Normal out)
  /\ (forall out,
        aggregateData host series agg = Normal out ->
        Forall2 carries out series).
Proof.
  intros Hlen. rewrite !aggregateData_short by exact Hlen.
  split; [reflexivity|]. split.
  - intros Hp. destruct (mapM_hourlyPoint _ _ Hp) as [out [E _]]. now exists out.
  - intros out E. apply (mapM_hourlyPoint_normal _ _ _ E).
Qed.

Lemma short_series_keep_hourly_shape_witness :
  (List.length (firstn 24 Samples.twoDaysUtc) <= 24)%nat /\
  aggregateData Samples.stockholm (firstn 24 Samples.twoDaysUtc) monthly
    = aggregateData Samples.stockholm (firstn 24 Samples.twoDaysUtc) hourly
  /\ (Forall (parses Samples.stockholm) (firstn 24 Samples.twoDaysUtc) ->
      exists out,
        aggregateData Samples.stockholm (firstn 24 Samples.twoDaysUtc) monthly
        = Normal out)
  /\ (forall out,
        aggregateData Samples.stockholm (firstn 24 Samples.twoDaysUtc) monthly
        = Normal out ->
        Forall2 carries out (firstn 24 Samples.twoDaysUtc)).
Proof.
  assert (H1 : (List.length (firstn 24 Samples.twoDaysUtc) <= 24)%nat)
    by (vm_compute; lia).
  split; [exact H1|].
  exact (short_series_keep_hourly_shape Samples.stockholm _ monthly H1).
Defined.

(** The first day of the sample series, asked for monthly. *)
Example one_day_monthly :
  exists out,
    aggregateData Samples.stockholm (firstn 24 Samples.twoDaysUtc) monthly
    = Normal out
    /\ List.length out = 24%nat
    /\ map label (firstn 2 out) = ["15/01 01:00"; "15/01 02:00"].
Proof. eexists. split; [vm_compute; reflexivity|]. split; reflexivity. Qed.








(** C4, as stated: the daily key would be the date written in the timestamp
    and the monthly key its written year-month.  They are not: 23:30 UTC on
    31 January, read on a host one hour east of UTC, falls on 1 February. *)
Lemma key_shifts_with_host_zone :
  ~ (forall host p,
       parses host p ->
       bucketKey host daily p = Normal (slice0 (Types.timestamp p) 10)
       /\ bucketKey host monthly p = Normal (slice0 (Types.timestamp p) 7)).
Proof.
  intros H.
  destruct (H Samples.stockholm Samples.lateEvening) as [Hd Hm].
  - unfold parses. vm_compute. discriminate.
  - vm_compute in Hd. discriminate Hd.
Qed.

Example late_evening_keys :
  bucketKey Samples.stockholm daily Samples.lateEvening = Normal "2024-02-01"
  /\ bucketKey Samples.stockholm monthly Samples.lateEvening = Normal "2024-02"
  /\ bucketKey Samples.greenwich daily Samples.lateEvening = Normal "2024-01-31".
Proof. vm_compute. repeat split. Qed.

(** C4, amended. The keys are the local calendar date and year-month of the
    parsed instant on the host.  They equal the date and the year-month
    written in the timestamp whenever no zone conversion takes place: the
    timestamp carries no zone designator, or one equal to the host's UTC
    offset, its hour field is not 24 and its year is not 0000. *)
Theorem key_is_written_date_without_conversion host p f :
  splitDateString (list_ascii_of_string (Types.timestamp p)) = Some f ->
  validateDate f = true -> validateTime f = true ->
  hours f <> 24 -> year f <> 0 ->
  zone f = None \/ zone f = Some (- (utcOffsetMinutes host * msInMinute)) ->
  bucketKey host daily p = Normal (slice0 (Types.timestamp p) 10)
  /\ bucketKey host monthly p = Normal (slice0 (Types.timestamp p) 7).
Proof.
  intros Hs Hd Ht H24 Hy Hz.
  destruct (splitDateString_inv _ _ Hs)
    as (y1 & y2 & y3 & y4 & m1 & m2 & d1 & d2 & rest & El & Ey & Em & Ed & Hh & Hm & Hsec).
  unfold bucketKey, parseISO. rewrite Hs, Hd, Ht. simpl andb. cbv iota.
  unfold slice0. rewrite El.
  unfold format, pattern_yyyy_MM_dd, pattern_yyyy_MM.
  unfold formatToken. rewrite (localMs_of_fields _ _ Hz).
  pose proof (validateTime_bound _ Ht H24 Hh Hm Hsec) as Hb.
  replace ((daysFromCivil (year f) (month f) (day f) * msInDay
            + (hours f * msInHour + minutes f * msInMinute + seconds f * 1000))
           / msInDay)
    with (daysFromCivil (year f) (month f) (day f)).
  2:{ apply Z.div_unique with
        (r := hours f * msInHour + minutes f * msInMinute + seconds f * 1000);
      [left; exact Hb | lia]. }
  unfold validateDate in Hd.
  apply andb_true_iff in Hd as [Hd Hd4]. apply andb_true_iff in Hd as [Hd Hd3].
  apply andb_true_iff in Hd as [Hd1 Hd2].
  apply Z.leb_le in Hd1, Hd2, Hd3, Hd4.
  rewrite civil_roundtrip by lia.
  assert (Hy0 : 0 <= year f).
  { apply digits4_inv in Ey as (w & x & y & z & ? & ? & ? & ? & -> & _). lia. }
  replace (0 <? year f) with true by (symmetry; apply Z.ltb_lt; lia).
  cbv [map]. 
  rewrite (addLeadingZeros_4 _ _ _ _ _ Ey), (addLeadingZeros_2 _ _ _ Em),
          (addLeadingZeros_2 _ _ _ Ed).
  split; reflexivity.
Qed.

Lemma key_is_written_date_without_conversion_witness :
  splitDateString (list_ascii_of_string (Types.timestamp Samples.lateEveningLocal))
    = Some Samples.lateEveningFields
  /\ validateDate Samples.lateEveningFields = true
  /\ validateTime Samples.lateEveningFields = true
  /\ hours Samples.lateEveningFields <> 24
  /\ year Samples.lateEveningFields <> 0
  /\ (zone Samples.lateEveningFields = None
      \/ zone Samples.lateEveningFields
         = Some (- (utcOffsetMinutes Samples.stockholm * msInMinute)))
  /\ bucketKey Samples.stockholm daily Samples.lateEveningLocal
      = Normal (slice0 (Types.timestamp Samples.lateEveningLocal) 10)
  /\ bucketKey Samples.stockholm monthly Samples.lateEveningLocal
      = Normal (slice0 (Types.timestamp Samples.lateEveningLocal) 7).
Proof.
  assert (H1 : splitDateString
                 (list_ascii_of_string (Types.timestamp Samples.lateEveningLocal))
               = Some Samples.lateEveningFields) by reflexivity.
  assert (H2 : validateDate Samples.lateEveningFields = true) by reflexivity.
  assert (H3 : validateTime Samples.lateEveningFields = true) by reflexivity.
  assert (H4 : hours Samples.lateEveningFields <> 24) by (simpl; lia).
  assert (H5 : year Samples.lateEveningFields <> 0) by (simpl; lia).
  assert (H6 : zone Samples.lateEveningFields = None
               \/ zone Samples.lateEveningFields
                  = Some (- (utcOffsetMinutes Samples.stockholm * msInMinute)))
    by (right; reflexivity).
  repeat (split; [assumption|]).
  exact (key_is_written_date_without_conversion
           Samples.stockholm Samples.lateEveningLocal Samples.lateEveningFields
           H1 H2 H3 H4 H5 H6).
Defined.

(** C5. Daily and monthly aggregation of a series of more than 24 points
    returns whenever the timestamps parse, and every sequence it returns has
    one bucket per key, in the order in which the keys are first seen: the
    labels are the keys of a subsequence [reps] of the input, each
    representative being the first input point of its key.  When the input
    is sorted by ascending instant, so are the representatives: the buckets
    come in the chronological order of the input. *)
Theorem buckets_follow_first_seen_order host series agg :
  (24 < List.length series)%nat -> agg <> hourly ->
  (Forall (parses host) series ->
   exists out, aggregateData host series agg = Normal out)
  /\ forall out,
       aggregateData host series agg = Normal out ->
       exists reps,
         map label out = map (keyOf host agg) reps
         /\ Subsequence reps series
         /\ NoDup (map (keyOf host agg) reps)
         /\ (forall p, In p series ->
                In (keyOf host agg p) (map (keyOf host agg) reps))
         /\ (forall rep, In rep reps ->
               exists before after,
                 series = before ++ rep :: after
                 /\ Forall (fun q => keyOf host agg q <> keyOf host agg rep)
                           before)
         /\ (StronglySorted (fun p q => instantOf host p <= instantOf host q)
                            series ->
             StronglySorted (fun p q => instantOf host p <= instantOf host q)
                            reps).
Proof.
  intros Hlen Hagg. split.
  { intros Hp. eexists. apply aggregateData_bucketed; assumption. }
  intros out E.
  pose proof (aggregateData_normal_parses _ _ _ _ E) as Hp.
  rewrite (aggregateData_bucketed _ _ _ Hlen Hagg Hp) in E.
  injection E as <-.
  exists (firstSeenBy (keyOf host agg) [] series).
  split; [now rewrite map_map|].
  split; [apply firstSeenBy_subsequence|].
  split; [apply firstSeenBy_NoDup|].
  split.
  { intros p Hin.
    destruct (firstSeenBy_covers (keyOf host agg) [] series p Hin) as [[]|H].
    exact H. }
  split; [intros rep; apply firstSeenBy_first|].
  apply Subsequence_sorted, firstSeenBy_subsequence.
Qed.

Lemma buckets_follow_first_seen_order_witness :
  (24 < List.length Samples.twoDaysUtc)%nat /\ daily <> hourly /\
  ((Forall (parses Samples.stockholm) Samples.twoDaysUtc ->
   exists out, aggregateData Samples.stockholm Samples.twoDaysUtc daily = Normal out)
  /\ forall out,
       aggregateData Samples.stockholm Samples.twoDaysUtc daily = Normal out ->
       exists reps,
         map label out = map (keyOf Samples.stockholm daily) reps
         /\ Subsequence reps Samples.twoDaysUtc
         /\ NoDup (map (keyOf Samples.stockholm daily) reps)
         /\ (forall p, In p Samples.twoDaysUtc ->
                In (keyOf Samples.stockholm daily p) (map (keyOf Samples.stockholm daily) reps))
         /\ (forall rep, In rep reps ->
               exists before after,
                 Samples.twoDaysUtc = before ++ rep :: after
                 /\ Forall (fun q => keyOf Samples.stockholm daily q <> keyOf Samples.stockholm daily rep)
                           before)
         /\ (StronglySorted (fun p q => instantOf Samples.stockholm p <= instantOf Samples.stockholm q)
                            Samples.twoDaysUtc ->
             StronglySorted (fun p q => instantOf Samples.stockholm p <= instantOf Samples.stockholm q)
                            reps)).
Proof.
  assert (H1 : (24 < List.length Samples.twoDaysUtc)%nat) by (vm_compute; lia).
  assert (H2 : daily <> hourly) by discriminate.
  repeat (split; [assumption|]).
  exact (buckets_follow_first_seen_order Samples.stockholm Samples.twoDaysUtc
           daily H1 H2).
Defined.

(** The same 48 hours given as UTC instants fall on three local days on a
    host one hour east of UTC; the buckets come in that order. *)
Example utc_hours_on_a_host_east_of_utc :
  exists out,
    aggregateData Samples.stockholm Samples.twoDaysUtc daily = Normal out
    /\ map label out = ["2024-01-15"; "2024-01-16"; "2024-01-17"].
Proof. eexists. split; [vm_compute; reflexivity|reflexivity]. Qed.

(** C8, as stated: aggregation would return for every series.  It does not:
    on a timestamp the date library cannot read, [format] throws. *)
Lemma aggregation_throws_on_unreadable_timestamp :
  ~ (forall host series agg,
       exists out, aggregateData host series agg = Normal out).
Proof.
  intros H.
  destruct (H Samples.greenwich [Samples.unreadable] hourly) as [out E].
  vm_compute in E. discriminate E.
Qed.

Lemma extend_populated host agg l kv :
  (0 < List.length (cloud (snd kv)))%nat /\
  (0 < List.length (lightning (snd kv)))%nat ->
  (0 < List.length (cloud (snd (extend host agg l kv))))%nat /\
  (0 < List.length (lightning (snd (extend host agg l kv))))%nat.
Proof.
  unfold extend. simpl. rewrite !length_app. lia.
Qed.

Lemma groupStep_populated host agg g p :
  populated g -> populated (groupStep host agg g p).
Proof.
  unfold populated, groupStep, pushInto. intros Hg.
  apply Forall_map.
  assert (H : Forall (fun kv =>
              String.eqb (fst kv) (keyOf host agg p) = true \/
              ((0 < List.length (cloud (snd kv)))%nat /\
               (0 < List.length (lightning (snd kv)))%nat))
            (if negb (hasKey g (keyOf host agg p))
             then g ++ [(keyOf host agg p, {| cloud := []; lightning := [] |})]
             else g)).
  { destruct (negb (hasKey g (keyOf host agg p))).
    - apply Forall_app. split.
      + eapply Forall_impl; [|exact Hg]. intros kv Hkv. now right.
      + constructor; [|constructor]. left. apply String.eqb_refl.
    - eapply Forall_impl; [|exact Hg]. intros kv Hkv. now right. }
  eapply Forall_impl; [|exact H]. intros kv [Hk|Hk].
  - rewrite Hk. simpl. rewrite !length_app. simpl. lia.
  - destruct (String.eqb (fst kv) (keyOf host agg p)); [|exact Hk].
    simpl. rewrite !length_app. simpl. lia.
Qed.

Lemma fold_groupStep_populated host agg l : forall g,
  populated g -> populated (fold_left (groupStep host agg) l g).
Proof.
  induction l as [|p r IH]; intros g Hg; simpl; [exact Hg|].
  apply IH, groupStep_populated, Hg.
Qed.

(** C8, amended. On every series whose timestamps all parse (the empty
    series included) and for every resolution, aggregation returns a
    sequence.  When it buckets, the sequence is computed from a [grouped]
    object every bucket of which received at least one value in each array,
    so each mean divides a sum by a strictly positive count. *)
Theorem aggregation_total_on_parsed_series host series agg :
  Forall (parses host) series ->
  exists out,
    aggregateData host series agg = Normal out
    /\ (isHourly agg || (Z.of_nat (List.length series) <=? 24) = false ->
        exists grouped,
          groupSeries host agg series = Normal grouped
          /\ populated grouped
          /\ out = map bucketPoint grouped).
Proof.
  intros Hp. unfold aggregateData.
  destruct (isHourly agg || (Z.of_nat (List.length series) <=? 24)) eqn:E.
  - destruct (mapM_hourlyPoint _ _ Hp) as [out [Eo _]].
    exists out. split; [exact Eo|discriminate].
  - unfold groupSeries. rewrite (forEachM_groupPoint _ _ _ _ Hp). simpl.
    eexists. split; [reflexivity|]. intros _.
    eexists. split; [reflexivity|]. split; [|reflexivity].
    apply fold_groupStep_populated. constructor.
Qed.

Lemma aggregation_total_on_parsed_series_witness :
  Forall (parses Samples.greenwich) Samples.twoDaysUtc /\
  exists out,
    aggregateData Samples.greenwich Samples.twoDaysUtc monthly = Normal out
    /\ (isHourly monthly
         || (Z.of_nat (List.length Samples.twoDaysUtc) <=? 24) = false ->
        exists grouped,
          groupSeries Samples.greenwich monthly Samples.twoDaysUtc = Normal grouped
          /\ populated grouped
          /\ out = map bucketPoint grouped).
Proof.
  assert (H : Forall (parses Samples.greenwich) Samples.twoDaysUtc)
    by (apply forallb_parses; vm_compute; reflexivity).
  split; [exact H|].
  exact (aggregation_total_on_parsed_series _ _ monthly H).
Defined.

End AggregationFacts.

(** ** The pattern panel *)

Module PanelFacts.

Import Js AIPatternsPanel.

(** C9, as stated: the panel would return null whenever the patterns field
    is missing, not an array or an empty array.  It does not: a non-empty
    string has a truthy length, passes the guard, and [data.patterns.map]
    throws. *)
Lemma panel_throws_on_text_patterns :
  ~ (forall v,
       optionalGet v "patterns" = Undefined
       \/ (forall items, optionalGet v "patterns" <> Array items)
       \/ optionalGet v "patterns" = Array [] ->
       AIPatternsPanel v = Normal None).
Proof.
  intros H. specialize (H Samples.patternsAsText).
  assert (E : AIPatternsPanel Samples.patternsAsText
              = Throw (TypeError "data.patterns.map is not a function"))
    by reflexivity.
  rewrite E in H. discriminate H.
  right. left. intros items. discriminate.
Qed.

Lemma guard_closed v :
  truthy (optionalGet (optionalGet v "patterns") "length") = false ->
  AIPatternsPanel v = Normal None.
Proof. intros H. unfold AIPatternsPanel. now rewrite H. Qed.

(** C9, amended. The panel returns null, without failing, for every input
    whose patterns field is missing, null, an empty array, or a non-array
    that has no truthy length: a boolean, a number, the empty string, an
    object whose own [length] is absent or falsy. *)
Theorem panel_renders_nothing_without_truthy_length v :
  optionalGet v "patterns" = Undefined
  \/ optionalGet v "patterns" = Null
  \/ optionalGet v "patterns" = Array []
  \/ (exists b, optionalGet v "patterns" = Bool b)
  \/ (exists x, optionalGet v "patterns" = Number x)
  \/ optionalGet v "patterns" = Str ""
  \/ (exists fields, optionalGet v "patterns" = Object fields
                     /\ truthy (getOwn fields "length") = false) ->
  AIPatternsPanel v = Normal None.
Proof.
  intros H. apply guard_closed.
  destruct H as [-> | [-> | [-> | [[b ->] | [[x ->] | [-> | [fs [-> Hfs]]]]]]]];
    try reflexivity.
  exact Hfs.
Qed.

Lemma panel_renders_nothing_without_truthy_length_witness :
  (optionalGet (Object [("summary", Str "calm")]) "patterns" = Undefined
   \/ optionalGet (Object [("summary", Str "calm")]) "patterns" = Null
   \/ optionalGet (Object [("summary", Str "calm")]) "patterns" = Array []
   \/ (exists b, optionalGet (Object [("summary", Str "calm")]) "patterns" = Bool b)
   \/ (exists x, optionalGet (Object [("summary", Str "calm")]) "patterns" = Number x)
   \/ optionalGet (Object [("summary", Str "calm")]) "patterns" = Str ""
   \/ (exists fields,
         optionalGet (Object [("summary", Str "calm")]) "patterns" = Object fields
         /\ truthy (getOwn fields "length") = false))
  /\ AIPatternsPanel (Object [("summary", Str "calm")]) = Normal None.
Proof.
  assert (H : optionalGet (Object [("summary", Str "calm")]) "patterns" = Undefined)
    by reflexivity.
  split; [left; exact H|].
  apply panel_renders_nothing_without_truthy_length. left. exact H.
Defined.

End PanelFacts.

(** ** The application shell *)

Module AppFacts.

Import Js App.

(** The sibling path: an ai-patterns response with an error status leaves
    the weather data in place and only clears the pattern state. *)
Lemma patterns_error_status_is_soft weather body s :
  truthy weather = true ->
  let s' := fetchWeatherByCoords
              (Resolved {| ok := true; json := Normal weather |})
              (Resolved {| ok := false; json := body |}) s in
  weatherData s' = weather /\ aiPatterns s' = Null /\ error s' = None
  /\ loading s' = false
  /\ charts (render s') = Some weather /\ patternPanel (render s') = None
  /\ errorBanner (render s') = None.
Proof.
  intros H. simpl. rewrite H. repeat split.
Qed.

Example unavailable_model_keeps_the_charts :
  let s' := fetchWeatherByCoords Samples.weatherOk Samples.patternsUnavailable
                                 initial in
  charts (render s') = Some Samples.forecast
  /\ patternPanel (render s') = None
  /\ errorBanner (render s') = None.
Proof. repeat split. Qed.

(** C6 at the failing input: the weather request succeeds and the
    ai-patterns request is rejected.  [Promise.all] rejects, the shared
    [catch] runs, and the weather data is discarded: no charts, an error
    banner instead. *)
Theorem rejected_patterns_request_discards_weather :
  let s' := fetchWeatherByCoords Samples.weatherOk Samples.patternsUnreachable
                                 initial in
  weatherData s' = Null /\ aiPatterns s' = Null
  /\ error s' = Some "Failed to fetch"
  /\ charts (render s') = None
  /\ errorBanner (render s') = Some "Failed to fetch".
Proof. repeat split. Qed.

(** The same happens when the ai-patterns response has status ok and a body
    that is not JSON. *)
Lemma unparsable_patterns_body_discards_weather :
  let s' := fetchWeatherByCoords Samples.weatherOk
              (Resolved {| ok := true;
                           json := Throw (OtherError "Unexpected token < in JSON") |})
              initial in
  weatherData s' = Null /\ charts (render s') = None
  /\ errorBanner (render s') = Some "Unexpected token < in JSON".
Proof. repeat split. Qed.

End AppFacts.

(** ** The search bar *)

Module SearchBarFacts.

Import SearchBar.

Lemma searchLocations_longEnough q : Forall longEnough (searchLocations q).
Proof.
  unfold searchLocations, tooShort.
  destruct (String.length (trim q) <? 2)%nat eqn:E; constructor; [|constructor].
  simpl. apply Nat.ltb_ge in E. exact E.
Qed.

Lemma step_longEnough s e : Forall longEnough (snd (step s e)).
Proof.
  destruct e; simpl; try constructor.
  - destruct (debounce s); simpl; [apply searchLocations_longEnough|constructor].
  - unfold handleSubmit. destruct (String.eqb (trim (query s)) ""); simpl;
      repeat constructor.
  - exact I.
  - constructor.
Qed.

Lemma run_longEnough events : forall s, Forall longEnough (snd (run s events)).
Proof.
  induction events as [|e rest IH]; intros s; simpl; [constructor|].
  pose proof (step_longEnough s e) as H1.
  destruct (step s e) as [s1 done]. specialize (IH s1).
  destruct (run s1 rest) as [s2 later]. simpl in *.
  apply Forall_app. split; assumption.
Qed.

Lemma setQuery_timerGuarded v s : timerGuarded s -> timerGuarded (setQuery v s).
Proof.
  unfold setQuery, queryEffect. intros H.
  destruct (String.eqb v (query s)); [exact H|]. simpl.
  destruct (tooShort v) eqn:E; simpl; [exact I|exact E].
Qed.

Lemma step_timerGuarded s e :
  timerGuarded s -> timerGuarded (fst (step s e)).
Proof.
  intros H. destruct e; simpl.
  - apply (setQuery_timerGuarded value s H).
  - destruct (debounce s); [exact I|exact H].
  - destruct r; exact H.
  - unfold handleSubmit. destruct (String.eqb (trim (query s)) ""); exact H.
  - apply (setQuery_timerGuarded (Types.display_name r)
             {| query := query s; results := results s;
                showResults := showResults s; selectedResult := Some r;
                debounce := debounce s |} H).
  - exact H.
  - destruct (0 <? List.length (results s))%nat; exact H.
Qed.

Lemma run_timerGuarded events : forall s,
  timerGuarded s -> timerGuarded (fst (run s events)).
Proof.
  induction events as [|e rest IH]; intros s H; simpl; [exact H|].
  pose proof (step_timerGuarded s e H) as H1.
  destruct (step s e) as [s1 done]. specialize (IH s1 H1).
  destruct (run s1 rest) as [s2 later]. exact IH.
Qed.

(** C10. Along every sequence of events from the initial state, each
    suggestion request is issued for a query whose trimmed length is at
    least 2, and in the state reached, submitting a query that is empty or
    all white space calls nothing: the search callback is not invoked and the
    state is unchanged. *)
Theorem no_request_for_short_query_no_search_for_blank events :
  Forall longEnough (snd (run initial events))
  /\ (trim (query (fst (run initial events))) = "" ->
      step (fst (run initial events)) Submit = (fst (run initial events), [])).
Proof.
  split; [apply run_longEnough|].
  intros H. simpl. unfold handleSubmit. now rewrite H.
Qed.

Lemma no_request_for_short_query_no_search_for_blank_witness :
  Forall longEnough (snd (run initial Samples.quietEvents))
  /\ trim (query (fst (run initial Samples.quietEvents))) = ""
  /\ step (fst (run initial Samples.quietEvents)) Submit
     = (fst (run initial Samples.quietEvents), []).
Proof.
  destruct (no_request_for_short_query_no_search_for_blank Samples.quietEvents)
    as [H1 H2].
  split; [exact H1|]. split; [reflexivity|]. apply H2. reflexivity.
Defined.

Example typing_then_submitting :
  snd (run initial [Change "S"; TimerFires; Change "Sto"; TimerFires; Submit;
                    Change "  "; Submit])
  = [GeocodeRequest "Sto"; OnSearch "Sto" None].
Proof. reflexivity. Qed.

End SearchBarFacts.

(** ** The location resolver *)

Module LocationResolverFacts.

Import LocationResolver.

Lemma isDigit_not_minus c : isDigit c = true -> Ascii.eqb c "-" = false.
Proof.
  intros H. destruct (Ascii.eqb c "-") eqn:E; [|reflexivity].
  apply Ascii.eqb_eq in E. subst c. discriminate H.
Qed.

Lemma space_is_no_digit c :
  isSpace c = true -> isDigit c = false /\ Ascii.eqb c "." = false.
Proof.
  destruct c as [[] [] [] [] [] [] [] []]; vm_compute; intros H;
    try discriminate H; split; reflexivity.
Qed.

Lemma digit_is_no_space c :
  isDigit c = true -> isSpace c = false /\ Ascii.eqb c "," = false.
Proof.
  destruct c as [[] [] [] [] [] [] [] []]; vm_compute; intros H;
    try discriminate H; split; reflexivity.
Qed.

Lemma endsNumeral_head c rest :
  endsNumeral (c :: rest) -> isDigit c = false /\ Ascii.eqb c "." = false.
Proof.
  intros [H| ->]; [apply space_is_no_digit, H|split; reflexivity].
Qed.

Lemma takeDigits_app ds rest :
  Forall (fun c => isDigit c = true) ds ->
  match rest with c :: _ => isDigit c = false | [] => True end ->
  takeDigits (ds ++ rest) = (ds, rest).
Proof.
  intros Hds Hrest. induction Hds as [|c ds Hc _ IH]; simpl.
  - destruct rest as [|c r]; [reflexivity|]. simpl. now rewrite Hrest.
  - now rewrite Hc, IH.
Qed.

Lemma takeSign_show neg d rest :
  isDigit d = true ->
  takeSign (showSign neg ++ d :: rest) = (neg, d :: rest).
Proof.
  intros Hd. destruct neg; simpl; [reflexivity|].
  now rewrite (isDigit_not_minus _ Hd).
Qed.

Lemma takeFraction_show f rest :
  Forall (fun c => isDigit c = true) f -> endsNumeral rest ->
  takeFraction (showFraction f ++ rest) = Some (f, rest).
Proof.
  intros Hf Hrest. destruct f as [|f1 f].
  - simpl. destruct rest as [|c r]; [reflexivity|]. simpl.
    destruct (endsNumeral_head _ _ Hrest) as [_ E]. now rewrite E.
  - unfold takeFraction, showFraction.
    change (("."%char :: f1 :: f) ++ rest) with ("."%char :: ((f1 :: f) ++ rest)).
    cbv beta iota. rewrite Ascii.eqb_refl.
    rewrite (takeDigits_app (f1 :: f) rest Hf); [reflexivity|].
    destruct rest as [|c r]; [exact I|]. apply (endsNumeral_head _ _ Hrest).
Qed.

Lemma showFraction_head f rest :
  endsNumeral rest ->
  match showFraction f ++ rest with
  | c :: _ => isDigit c = false
  | [] => True
  end.
Proof.
  intros Hrest. destruct f as [|f1 f]; simpl; [|reflexivity].
  destruct rest as [|c r]; [exact I|]. apply (endsNumeral_head _ _ Hrest).
Qed.

Lemma parseNumeral_show n rest :
  wellFormed n -> endsNumeral rest ->
  parseNumeral (showNumeral n ++ rest) = Some (n, rest).
Proof.
  intros (Hne & Hw & Hf) Hrest. destruct n as [neg w f].
  cbn [negative whole fraction] in *.
  unfold parseNumeral, showNumeral. cbn [negative whole fraction].
  destruct w as [|d w]; [congruence|].
  inversion Hw as [|? ? Hd Hw']; subst.
  rewrite <- !app_assoc.
  change ((d :: w) ++ showFraction f ++ rest)
    with (d :: (w ++ showFraction f ++ rest)).
  rewrite (takeSign_show neg d _ Hd).
  change (d :: w ++ showFraction f ++ rest)
    with ((d :: w) ++ showFraction f ++ rest).
  rewrite (takeDigits_app (d :: w) _ Hw (showFraction_head f rest Hrest)).
  now rewrite (takeFraction_show f rest Hf Hrest).
Qed.

Lemma startsNumeral_head c rest :
  startsNumeral (c :: rest) -> isSpace c = false /\ Ascii.eqb c "," = false.
Proof.
  intros [H| ->]; [apply digit_is_no_space, H|split; reflexivity].
Qed.

Lemma skipSpaces_app ws rest :
  Forall (fun c => isSpace c = true) ws ->
  match rest with c :: _ => isSpace c = false | [] => True end ->
  skipSpaces (ws ++ rest) = rest.
Proof.
  intros Hws Hrest. induction Hws as [|c ws Hc _ IH]; simpl.
  - destruct rest as [|c r]; [reflexivity|]. simpl. now rewrite Hrest.
  - now rewrite Hc.
Qed.

Lemma parseSeparator_app sep rest :
  Separator sep -> startsNumeral rest -> parseSeparator (sep ++ rest) = Some rest.
Proof.
  intros Hsep Hrest. destruct rest as [|r0 rest]; [contradiction|].
  destruct (startsNumeral_head _ _ Hrest) as [Hsp Hco].
  destruct Hsep as [ws Hne Hws | ws1 ws2 H1 H2].
  - destruct ws as [|c ws]; [congruence|].
    inversion Hws as [|? ? Hc Hws']; subst. simpl. rewrite Hc.
    rewrite (skipSpaces_app ws (r0 :: rest) Hws' Hsp). now rewrite Hco.
  - rewrite <- app_assoc. simpl.
    destruct ws1 as [|c ws1]; simpl.
    + replace (isSpace ",") with false by reflexivity. simpl.
      now rewrite (skipSpaces_app ws2 (r0 :: rest) H2 Hsp).
    + inversion H1 as [|? ? Hc H1']; subst. rewrite Hc.
      rewrite (skipSpaces_app ws1 (","%char :: ws2 ++ r0 :: rest) H1')
        by reflexivity.
      simpl. now rewrite (skipSpaces_app ws2 (r0 :: rest) H2 Hsp).
Qed.

Lemma showNumeral_starts n : wellFormed n -> startsNumeral (showNumeral n).
Proof.
  intros (Hne & Hw & _). unfold showNumeral, showSign.
  destruct (negative n); simpl; [now right|].
  destruct (whole n) as [|d w]; [congruence|].
  inversion Hw; subst. simpl. now left.
Qed.

Lemma Separator_ends sep rest : Separator sep -> endsNumeral (sep ++ rest).
Proof.
  intros [ws Hne Hws | ws1 ws2 H1 H2].
  - destruct ws as [|c ws]; [congruence|]. inversion Hws; subst. simpl. now left.
  - destruct ws1 as [|c ws1]; simpl; [now right|].
    inversion H1; subst. now left.
Qed.

Lemma matchCoordinates_query a sep b :
  wellFormed a -> wellFormed b -> Separator sep ->
  matchCoordinates (coordinateQuery a sep b) = Some (valueOf a, valueOf b).
Proof.
  intros Ha Hb Hsep. unfold matchCoordinates, coordinateQuery.
  rewrite list_ascii_of_string_of_list_ascii.
  rewrite (parseNumeral_show a _ Ha (Separator_ends sep _ Hsep)).
  rewrite (parseSeparator_app sep _ Hsep (showNumeral_starts b Hb)).
  rewrite <- (app_nil_r (showNumeral b)).
  now rewrite (parseNumeral_show b [] Hb I).
Qed.

(** C7. A query made of two decimal numbers separated by a comma and/or
    white space, the first within -90..90 and the second within -180..180,
    resolves to those coordinates and sends nothing to the geocoding
    service; when a value is out of range the direct parse rejects the pair
    and the raw query goes to the geocoding service.  So do "59.3, 18.0",
    "59.3 18.0" and "200, 18.0". *)
Theorem coordinate_queries_resolve_directly geocode prefer a sep b :
  wellFormed a -> wellFormed b -> Separator sep ->
  (validLatitude (valueOf a) && validLongitude (valueOf b) = true ->
   resolve geocode prefer (coordinateQuery a sep b)
   = (Coordinates (valueOf a) (valueOf b), []))
  /\ (validLatitude (valueOf a) && validLongitude (valueOf b) = false ->
      resolve geocode prefer (coordinateQuery a sep b)
      = (fromCandidates prefer (geocode (coordinateQuery a sep b)),
         [coordinateQuery a sep b]))
  /\ resolve geocode prefer "59.3, 18.0"
     = (Coordinates {| mantissa := 593; scale := 1 |}
                    {| mantissa := 180; scale := 1 |}, [])
  /\ resolve geocode prefer "59.3 18.0"
     = (Coordinates {| mantissa := 593; scale := 1 |}
                    {| mantissa := 180; scale := 1 |}, [])
  /\ resolve geocode prefer "200, 18.0"
     = (fromCandidates prefer (geocode "200, 18.0"), ["200, 18.0"]).
Proof.
  intros Ha Hb Hsep. unfold resolve.
  rewrite (matchCoordinates_query a sep b Ha Hb Hsep).
  split; [intros ->; reflexivity|].
  split; [intros ->; reflexivity|].
  repeat split.
Qed.

Lemma coordinate_queries_resolve_directly_witness :
  wellFormed Samples.latitude59_3 /\ wellFormed Samples.longitude18_0
  /\ Separator [","%char; " "%char]
  /\ validLatitude (valueOf Samples.latitude59_3)
     && validLongitude (valueOf Samples.longitude18_0) = true
  /\ resolve Samples.nowhere false
       (coordinateQuery Samples.latitude59_3 [","%char; " "%char]
                        Samples.longitude18_0)
     = (Coordinates (valueOf Samples.latitude59_3)
                    (valueOf Samples.longitude18_0), []).
Proof.
  assert (Ha : wellFormed Samples.latitude59_3).
  { split; [discriminate|]. split; repeat constructor. }
  assert (Hb : wellFormed Samples.longitude18_0).
  { split; [discriminate|]. split; repeat constructor. }
  assert (Hs : Separator [","%char; " "%char]).
  { apply (separator_comma [] [" "%char]); repeat constructor. }
  repeat (split; [assumption|]).
  split; [reflexivity|].
  exact (proj1 (coordinate_queries_resolve_directly
                  Samples.nowhere false _ _ _ Ha Hb Hs) eq_refl).
Defined.

End LocationResolverFacts.

(** * Further properties of the code *)

(** ** Aggregation: sizes, conservation, failure, resolutions *)

Module GroupingFacts.

Import DateFns DateChecks DateFacts WeatherCharts AggregationSpec AggregationFacts.
Import GroupingSpec.

(** *** Hourly resolution *)

Lemma hourlyPoint_label host p q :
  hourlyPoint host p = Normal q ->
  format host (parseISO host (Types.timestamp p)) pattern_dd_MM_HH_mm
  = Normal (label q).
Proof.
  unfold hourlyPoint.
  destruct (format host (parseISO host (Types.timestamp p)) pattern_dd_MM_HH_mm)
    as [l|e]; simpl; [|discriminate].
  intros [= <-]. reflexivity.
Qed.

Lemma mapM_hourlyPoint_labels host l : forall out,
  mapM (hourlyPoint host) l = Normal out ->
  Forall2 (fun q p =>
             carries q p
             /\ format host (parseISO host (Types.timestamp p)) pattern_dd_MM_HH_mm
                = Normal (label q)) out l.
Proof.
  induction l as [|p r IH]; simpl; intros out E.
  - injection E as <-. constructor.
  - destruct (hourlyPoint host p) as [q|] eqn:Eq; simpl in E; [|discriminate].
    destruct (mapM (hourlyPoint host) r) as [qs|] eqn:Er; simpl in E;
      [|discriminate].
    injection E as <-. constructor; [|apply IH; reflexivity].
    split; [apply (hourlyPoint_normal _ _ _ Eq)|apply hourlyPoint_label, Eq].
Qed.

(** X1. At the hourly resolution a series of any length is mapped point by
    point: aggregation returns whenever the timestamps parse, and every
    sequence it returns has one point per input point, in input order, with
    the point's timestamp and values unchanged and the label the local
    [dd/MM HH:mm] rendering of its timestamp. *)
Theorem hourly_resolution_maps_every_point host series :
  (Forall (parses host) series ->
   exists out, aggregateData host series hourly = Normal out)
  /\ forall out,
       aggregateData host series hourly = Normal out ->
       Forall2 (fun q p =>
                  carries q p
                  /\ format host (parseISO host (Types.timestamp p))
                            pattern_dd_MM_HH_mm
                     = Normal (label q)) out series.
Proof.
  unfold aggregateData. simpl. split.
  - intros Hp. destruct (mapM_hourlyPoint _ _ Hp) as [out [E _]]. now exists out.
  - apply mapM_hourlyPoint_labels.
Qed.

Lemma hourly_resolution_maps_every_point_witness :
  exists out,
    aggregateData Samples.stockholm Samples.twoDaysUtc hourly = Normal out
    /\ Forall2 (fun q p =>
                  carries q p
                  /\ format Samples.stockholm
                            (parseISO Samples.stockholm (Types.timestamp p))
                            pattern_dd_MM_HH_mm
                     = Normal (label q)) out Samples.twoDaysUtc.
Proof.
  destruct (hourly_resolution_maps_every_point
              Samples.stockholm Samples.twoDaysUtc) as [H1 H2].
  destruct H1 as [out E]; [apply forallb_parses; vm_compute; reflexivity|].
  exists out. split; [exact E|apply H2, E].
Defined.

(** *** Size of the output *)

Lemma Subsequence_length {A : Type} (reps l : list A) :
  Subsequence reps l -> (List.length reps <= List.length l)%nat.
Proof. induction 1; simpl; lia. Qed.

(** X2. Whatever the resolution, a returned sequence is never longer than
    the input, and it is empty exactly when the input is empty. *)
Theorem output_no_longer_than_input host series agg out :
  aggregateData host series agg = Normal out ->
  (List.length out <= List.length series)%nat
  /\ (out = [] <-> series = []).
Proof.
  intros E. pose proof (aggregateData_normal_parses _ _ _ _ E) as Hp.
  unfold aggregateData in E.
  destruct (isHourly agg || (Z.of_nat (List.length series) <=? 24)) eqn:Eb.
  - destruct (mapM_hourlyPoint_normal _ _ _ E) as [_ F].
    pose proof (Forall2_length F) as Hl. split; [lia|].
    split; intros ->; [destruct series|destruct out]; simpl in Hl;
      try reflexivity; discriminate.
  - apply orb_false_iff in Eb as [Ha Hb]. apply Z.leb_gt in Hb.
    rewrite (groupSeries_closed _ _ _ Hp) in E. simpl in E.
    injection E as <-. rewrite !length_map.
    split.
    + apply Subsequence_length, firstSeenBy_subsequence.
    + destruct series as [|p r]; [simpl in Hb; lia|].
      simpl. split; discriminate.
Qed.

Lemma output_no_longer_than_input_witness :
  aggregateData Samples.stockholm Samples.twoDaysUtc daily
  = Normal (MoreSamples.returned
              (aggregateData Samples.stockholm Samples.twoDaysUtc daily))
  /\ (List.length (MoreSamples.returned
                     (aggregateData Samples.stockholm Samples.twoDaysUtc daily))
      <= List.length Samples.twoDaysUtc)%nat
  /\ (MoreSamples.returned
        (aggregateData Samples.stockholm Samples.twoDaysUtc daily) = []
      <-> Samples.twoDaysUtc = []).
Proof.
  assert (E : aggregateData Samples.stockholm Samples.twoDaysUtc daily
              = Normal (MoreSamples.returned
                          (aggregateData Samples.stockholm Samples.twoDaysUtc daily)))
    by (vm_compute; reflexivity).
  split; [exact E|].
  exact (output_no_longer_than_input _ _ _ _ E).
Defined.

(** *** What the grouping loop keeps *)

Lemma cloudCount_app g1 g2 : cloudCount (g1 ++ g2) = (cloudCount g1 + cloudCount g2)%nat.
Proof. unfold cloudCount. now rewrite map_app, list_sum_app. Qed.

Lemma pushInto_count g k c l :
  NoDup (map fst g) -> hasKey g k = true ->
  cloudCount (pushInto g k c l) = S (cloudCount g).
Proof.
  unfold hasKey, pushInto, cloudCount.
  induction g as [|kv g IH]; simpl; [discriminate|].
  intros Hn Hk. inversion Hn as [|? ? Hnotin Hn']; subst.
  destruct (String.eqb (fst kv) k) eqn:E; simpl.
  - apply String.eqb_eq in E.
    rewrite length_app. simpl.
    assert (Hrest : map (fun kv0 =>
                if String.eqb (fst kv0) k
                then (fst kv0, {| cloud := cloud (snd kv0) ++ [c];
                                  lightning := lightning (snd kv0) ++ [l] |})
                else kv0) g = g).
    { apply (pushInto_absent g k c l).
      unfold hasKey. destruct (existsb _ g) eqn:Ex; [|reflexivity].
      apply existsb_exists in Ex as [kv' [Hin Heq]].
      apply String.eqb_eq in Heq. exfalso. apply Hnotin.
      rewrite E, <- Heq. now apply in_map. }
    rewrite Hrest. lia.
  - rewrite (IH Hn' Hk). lia.
Qed.

Lemma hasKey_In g k : hasKey g k = true <-> In k (map fst g).
Proof. rewrite hasKey_seenIn. apply seenIn_true. Qed.

Lemma groupStep_keeps host agg g p :
  NoDup (map fst g) /\ paired g ->
  (NoDup (map fst (groupStep host agg g p)) /\ paired (groupStep host agg g p))
  /\ cloudCount (groupStep host agg g p) = S (cloudCount g).
Proof.
  intros [Hn Hp]. unfold groupStep.
  set (k := keyOf host agg p).
  set (g' := if negb (hasKey g k)
             then g ++ [(k, {| cloud := []; lightning := [] |})] else g).
  assert (Hn' : NoDup (map fst g')).
  { unfold g'. destruct (hasKey g k) eqn:E; simpl; [exact Hn|].
    rewrite map_app. simpl. apply NoDup_app; [exact Hn|repeat constructor; auto|].
    intros x Hx [<-|[]]. apply hasKey_In in Hx. congruence. }
  assert (Hk' : hasKey g' k = true).
  { unfold g'. destruct (hasKey g k) eqn:E; simpl; [exact E|].
    unfold hasKey. rewrite existsb_app. simpl.
    now rewrite String.eqb_refl, orb_true_r. }
  assert (Hp' : paired g').
  { unfold g'. destruct (hasKey g k); simpl; [exact Hp|].
    apply Forall_app. split; [exact Hp|]. repeat constructor. }
  assert (Hc' : cloudCount g' = cloudCount g).
  { unfold g'. destruct (hasKey g k); simpl; [reflexivity|].
    rewrite cloudCount_app. unfold cloudCount. simpl. lia. }
  split; [split|].
  - now rewrite map_fst_pushInto.
  - unfold paired, pushInto. apply Forall_map.
    eapply Forall_impl; [|exact Hp']. intros kv Hkv.
    destruct (String.eqb (fst kv) k); [|exact Hkv].
    simpl in *. rewrite !length_app. simpl. lia.
  - rewrite (pushInto_count _ _ _ _ Hn' Hk'). now rewrite Hc'.
Qed.

Lemma fold_groupStep_keeps host agg l : forall g,
  NoDup (map fst g) /\ paired g ->
  (NoDup (map fst (fold_left (groupStep host agg) l g))
   /\ paired (fold_left (groupStep host agg) l g))
  /\ cloudCount (fold_left (groupStep host agg) l g)
     = (cloudCount g + List.length l)%nat.
Proof.
  induction l as [|p r IH]; intros g Hg; simpl.
  - split; [exact Hg|lia].
  - destruct (groupStep_keeps host agg g p Hg) as [Hg' Hc].
    destruct (IH _ Hg') as [Hg'' Hc'']. split; [exact Hg''|]. lia.
Qed.

(** X3. The grouping loop neither drops nor duplicates a point: when it
    returns, the keys of [grouped] are distinct, the two arrays of every
    bucket have the same length, and the buckets hold as many values in all
    as the series has points. *)
Theorem grouping_keeps_every_point host agg series grouped :
  groupSeries host agg series = Normal grouped ->
  NoDup (map fst grouped)
  /\ paired grouped
  /\ cloudCount grouped = List.length series.
Proof.
  unfold groupSeries. intros E.
  pose proof (forEachM_groupPoint_normal _ _ _ _ _ E) as Hp.
  rewrite (forEachM_groupPoint _ _ _ _ Hp) in E. injection E as <-.
  destruct (fold_groupStep_keeps host agg series [])
    as [[Hn Hpair] Hc]; [split; constructor|].
  repeat split; assumption.
Qed.

Lemma grouping_keeps_every_point_witness :
  groupSeries Samples.stockholm monthly Samples.twoDaysUtc
  = Normal (MoreSamples.returned
              (groupSeries Samples.stockholm monthly Samples.twoDaysUtc))
  /\ NoDup (map fst (MoreSamples.returned
                       (groupSeries Samples.stockholm monthly Samples.twoDaysUtc)))
  /\ paired (MoreSamples.returned
               (groupSeries Samples.stockholm monthly Samples.twoDaysUtc))
  /\ cloudCount (MoreSamples.returned
                   (groupSeries Samples.stockholm monthly Samples.twoDaysUtc))
     = List.length Samples.twoDaysUtc.
Proof.
  assert (E : groupSeries Samples.stockholm monthly Samples.twoDaysUtc
              = Normal (MoreSamples.returned
                          (groupSeries Samples.stockholm monthly Samples.twoDaysUtc)))
    by (vm_compute; reflexivity).
  split; [exact E|].
  exact (grouping_keeps_every_point _ _ _ _ E).
Defined.

(** *** Failure *)








(** *** Daily and monthly keys *)

(** The day of the month of every day number lies between 1 and 31. *)
Lemma civilFromDays_day z :
  let '(_, _, d) := civilFromDays z in 1 <= d <= 31.
Proof.
  unfold civilFromDays.
  set (era := (z + 719468) / 146097).
  set (doe := z + 719468 - era * 146097).
  assert (Hdoe : 0 <= doe < 146097).
  { unfold doe, era. Z.div_mod_to_equations. lia. }
  clearbody doe. clear era. cbv zeta.
  set (yoe := (doe - doe / 1460 + doe / 36524 - doe / 146096) / 365).
  set (doy := doe - (365 * yoe + yoe / 4 - yoe / 100)).
  assert (Hdoy : 0 <= doy <= 365).
  { unfold doy, yoe. Z.div_mod_to_equations. lia. }
  clearbody doy.
  Z.div_mod_to_equations. lia.
Qed.

Lemma length_append_string (a b : string) :
  String.length (a ++ b) = (String.length a + String.length b)%nat.
Proof. induction a as [|c a IH]; simpl; [reflexivity|now rewrite IH]. Qed.

Lemma append_inj_suffix (a b x y : string) :
  (a ++ x)%string = (b ++ y)%string -> String.length x = String.length y -> a = b.
Proof.
  revert b. induction a as [|c a IH]; intros [|d b] E L; simpl in E.
  - reflexivity.
  - exfalso. subst x. simpl in L. rewrite length_append_string in L. lia.
  - exfalso. subst y. simpl in L. rewrite length_append_string in L. lia.
  - injection E as -> E. f_equal. eapply IH; eassumption.
Qed.

Lemma append_assoc_string (a b c : string) :
  (a ++ (b ++ c))%string = ((a ++ b) ++ c)%string.
Proof. induction a as [|x a IH]; simpl; [reflexivity|now rewrite IH]. Qed.

Lemma addLeadingZeros_2_length n :
  0 <= n < 100 -> String.length (addLeadingZeros n 2) = 2%nat.
Proof.
  intros H. pose proof (forallb_zrange two_ok 0 100 two_checked n ltac:(lia)) as E.
  apply String.eqb_eq in E. now rewrite E.
Qed.

Lemma daily_key_extends_monthly host p :
  parses host p ->
  exists dd, String.length dd = 2%nat
             /\ keyOf host daily p = (keyOf host monthly p ++ "-" ++ dd)%string.
Proof.
  unfold parses, keyOf, bucketKey. intros Hp.
  destruct (parseISO host (Types.timestamp p)) as [|t]; [congruence|].
  unfold format, pattern_yyyy_MM_dd, pattern_yyyy_MM. cbv [map String.concat].
  unfold formatToken.
  pose proof (civilFromDays_day (localMs host t / msInDay)) as Hd.
  destruct (civilFromDays (localMs host t / msInDay)) as [[y m] d].
  exists (addLeadingZeros d 2). split; [apply addLeadingZeros_2_length; lia|].
  generalize (addLeadingZeros (if 0 <? y then y else 1 - y) 4) as a.
  generalize (addLeadingZeros m 2) as b. generalize (addLeadingZeros d 2) as c.
  intros c b a. cbn [append].
  change (String "-" (b ++ String "-" c)) with ("-" ++ (b ++ String "-" c))%string.
  rewrite !append_assoc_string. f_equal. now rewrite <- append_assoc_string.
Qed.

Lemma keyOf_unparsed host agg p :
  parseISO host (Types.timestamp p) = InvalidDate -> keyOf host agg p = "".
Proof. unfold keyOf, bucketKey. intros ->. destruct agg; reflexivity. Qed.

Lemma daily_key_nonempty host p : parses host p -> keyOf host daily p <> "".
Proof.
  intros Hp. destruct (daily_key_extends_monthly host p Hp) as [dd [_ ->]].
  destruct (keyOf host monthly p); discriminate.
Qed.

Lemma keyOf_same_day host p q :
  keyOf host daily p = keyOf host daily q ->
  keyOf host monthly p = keyOf host monthly q.
Proof.
  intros E.
  destruct (parseISO host (Types.timestamp p)) as [|tp] eqn:Ep;
    destruct (parseISO host (Types.timestamp q)) as [|tq] eqn:Eq.
  - now rewrite !keyOf_unparsed.
  - exfalso. apply (daily_key_nonempty host q).
    + unfold parses. rewrite Eq. discriminate.
    + rewrite <- E. now apply keyOf_unparsed.
  - exfalso. apply (daily_key_nonempty host p).
    + unfold parses. rewrite Ep. discriminate.
    + rewrite E. now apply keyOf_unparsed.
  - assert (Hp : parses host p) by (unfold parses; rewrite Ep; discriminate).
    assert (Hq : parses host q) by (unfold parses; rewrite Eq; discriminate).
    destruct (daily_key_extends_monthly host p Hp) as [dp [Lp Kp]].
    destruct (daily_key_extends_monthly host q Hq) as [dq [Lq Kq]].
    rewrite Kp, Kq in E.
    eapply append_inj_suffix; [exact E|]. simpl. congruence.
Qed.

(** X5. Daily buckets refine monthly buckets: two points that get the same
    daily key get the same monthly key. *)
Theorem same_day_means_same_month host p q :
  bucketKey host daily p = bucketKey host daily q ->
  bucketKey host monthly p = bucketKey host monthly q.
Proof.
  intros E.
  destruct (parseISO host (Types.timestamp p)) as [|tp] eqn:Ep;
    destruct (parseISO host (Types.timestamp q)) as [|tq] eqn:Eq.
  - unfold bucketKey. now rewrite Ep, Eq.
  - unfold bucketKey in E. rewrite Ep, Eq in E. discriminate E.
  - unfold bucketKey in E. rewrite Ep, Eq in E. discriminate E.
  - assert (Hp : parses host p) by (unfold parses; rewrite Ep; discriminate).
    assert (Hq : parses host q) by (unfold parses; rewrite Eq; discriminate).
    rewrite !bucketKey_parses in * by assumption.
    injection E as E. f_equal. apply keyOf_same_day, E.
Qed.

Lemma same_day_means_same_month_witness :
  bucketKey Samples.stockholm daily (Samples.hourly48 "Z" 3)
  = bucketKey Samples.stockholm daily (Samples.hourly48 "Z" 20)
  /\ bucketKey Samples.stockholm monthly (Samples.hourly48 "Z" 3)
     = bucketKey Samples.stockholm monthly (Samples.hourly48 "Z" 20).
Proof.
  assert (H : bucketKey Samples.stockholm daily (Samples.hourly48 "Z" 3)
              = bucketKey Samples.stockholm daily (Samples.hourly48 "Z" 20))
    by (vm_compute; reflexivity).
  split; [exact H|].
  exact (same_day_means_same_month _ _ _ H).
Defined.

(** A coarser key gives a subsequence of the first-seen elements. *)
Section Refinement.

Context {A : Type} (fine coarse : A -> string).
Hypothesis refines : forall a b, fine a = fine b -> coarse a = coarse b.

Lemma firstSeenBy_coarser l : forall seenF seenC,
  (forall a, In (fine a) seenF -> In (coarse a) seenC) ->
  Subsequence (firstSeenBy coarse seenC l) (firstSeenBy fine seenF l).
Proof.
  induction l as [|a r IH]; intros seenF seenC Hseen; simpl; [constructor|].
  destruct (seenIn seenF (fine a)) eqn:EF.
  - apply seenIn_true in EF. apply Hseen in EF. apply seenIn_true in EF.
    rewrite EF. apply IH, Hseen.
  - destruct (seenIn seenC (coarse a)) eqn:EC.
    + apply sub_skip. apply IH. intros b Hb.
      apply in_app_or in Hb as [Hb|[Hb|[]]]; [now apply Hseen|].
      apply seenIn_true in EC. now rewrite <- (refines _ _ Hb).
    + apply sub_keep. apply IH. intros b Hb. apply in_or_app.
      apply in_app_or in Hb as [Hb|[Hb|[]]]; [left; now apply Hseen|].
      right. left. now apply refines.
Qed.

End Refinement.

(** X6. A coarser resolution never gives more points: on one series the
    monthly output is no longer than the daily output, which is no longer
    than the hourly output, which has exactly one point per input point. *)
Theorem coarser_resolution_gives_no_more_points host series outH outD outM :
  aggregateData host series hourly = Normal outH ->
  aggregateData host series daily = Normal outD ->
  aggregateData host series monthly = Normal outM ->
  (List.length outM <= List.length outD)%nat
  /\ (List.length outD <= List.length outH)%nat
  /\ List.length outH = List.length series.
Proof.
  intros EH ED EM.
  pose proof (aggregateData_normal_parses _ _ _ _ EH) as Hp.
  assert (LH : List.length outH = List.length series).
  { unfold aggregateData in EH. simpl in EH.
    destruct (mapM_hourlyPoint_normal _ _ _ EH) as [_ F].
    apply (Forall2_length F). }
  destruct (Nat.le_gt_cases (List.length series) 24) as [Hs|Hl].
  - rewrite aggregateData_short in ED, EM by exact Hs.
    unfold aggregateData in EH. simpl in EH.
    assert (outD = outH) by congruence. assert (outM = outH) by congruence.
    subst. lia.
  - rewrite aggregateData_bucketed in ED, EM by (assumption || discriminate).
    injection ED as <-. injection EM as <-. rewrite !length_map.
    split; [|split; [|exact LH]].
    + apply Subsequence_length.
      apply (firstSeenBy_coarser (keyOf host daily) (keyOf host monthly)).
      * apply keyOf_same_day.
      * intros a [].
    + rewrite LH. apply Subsequence_length, firstSeenBy_subsequence.
Qed.

Lemma coarser_resolution_gives_no_more_points_witness :
  aggregateData Samples.stockholm Samples.twoDaysUtc hourly
  = Normal (MoreSamples.returned
              (aggregateData Samples.stockholm Samples.twoDaysUtc hourly))
  /\ aggregateData Samples.stockholm Samples.twoDaysUtc daily
     = Normal (MoreSamples.returned
                 (aggregateData Samples.stockholm Samples.twoDaysUtc daily))
  /\ aggregateData Samples.stockholm Samples.twoDaysUtc monthly
     = Normal (MoreSamples.returned
                 (aggregateData Samples.stockholm Samples.twoDaysUtc monthly))
  /\ (List.length (MoreSamples.returned
                     (aggregateData Samples.stockholm Samples.twoDaysUtc monthly))
      <= List.length (MoreSamples.returned
                        (aggregateData Samples.stockholm Samples.twoDaysUtc daily)))%nat
  /\ (List.length (MoreSamples.returned
                     (aggregateData Samples.stockholm Samples.twoDaysUtc daily))
      <= List.length (MoreSamples.returned
                        (aggregateData Samples.stockholm Samples.twoDaysUtc hourly)))%nat
  /\ List.length (MoreSamples.returned
                    (aggregateData Samples.stockholm Samples.twoDaysUtc hourly))
     = List.length Samples.twoDaysUtc.
Proof.
  assert (EH : aggregateData Samples.stockholm Samples.twoDaysUtc hourly
               = Normal (MoreSamples.returned
                           (aggregateData Samples.stockholm Samples.twoDaysUtc hourly)))
    by (vm_compute; reflexivity).
  assert (ED : aggregateData Samples.stockholm Samples.twoDaysUtc daily
               = Normal (MoreSamples.returned
                           (aggregateData Samples.stockholm Samples.twoDaysUtc daily)))
    by (vm_compute; reflexivity).
  assert (EM : aggregateData Samples.stockholm Samples.twoDaysUtc monthly
               = Normal (MoreSamples.returned
                           (aggregateData Samples.stockholm Samples.twoDaysUtc monthly)))
    by (vm_compute; reflexivity).
  repeat (split; [assumption|]).
  exact (coarser_resolution_gives_no_more_points _ _ _ _ _ EH ED EM).
Defined.

End GroupingFacts.

(** ** The pattern panel: what it draws and when it throws *)

Module PanelExtras.

Import Js AIPatternsPanel PanelSpec.

Lemma replaceUnderscores_length s :
  String.length (replaceUnderscores s) = String.length s.
Proof. induction s as [|c s IH]; simpl; [reflexivity|now rewrite IH]. Qed.

Lemma replaceUnderscores_get s : forall n,
  String.get n (replaceUnderscores s)
  = match String.get n s with
    | Some c => Some (if Ascii.eqb c "_" then " "%char else c)
    | None => None
    end.
Proof.
  induction s as [|c s IH]; intros n; simpl; [reflexivity|].
  destruct n; [reflexivity|apply IH].
Qed.

(** X7. The displayed name of a pattern has the length of its name, holds no
    underscore, keeps every other character in place, and is left unchanged
    by a second replacement. *)
Theorem displayed_name_has_no_underscore s :
  String.length (replaceUnderscores s) = String.length s
  /\ (forall n c, String.get n (replaceUnderscores s) = Some c -> c <> "_"%char)
  /\ (forall n c, String.get n s = Some c -> c <> "_"%char ->
        String.get n (replaceUnderscores s) = Some c)
  /\ replaceUnderscores (replaceUnderscores s) = replaceUnderscores s.
Proof.
  split; [apply replaceUnderscores_length|]. split; [|split].
  - intros n c. rewrite replaceUnderscores_get.
    destruct (String.get n s) as [d|]; [|discriminate].
    destruct (Ascii.eqb d "_") eqn:E; intros [= <-]; [discriminate|].
    intros ->. discriminate E.
  - intros n c H Hc. rewrite replaceUnderscores_get, H.
    destruct (Ascii.eqb c "_") eqn:E; [|reflexivity].
    apply Ascii.eqb_eq in E. contradiction.
  - induction s as [|c s IH]; simpl; [reflexivity|]. rewrite IH. f_equal.
    destruct (Ascii.eqb c "_") eqn:E; [reflexivity|now rewrite E].
Qed.

Lemma displayed_name_has_no_underscore_witness :
  String.get 6 (replaceUnderscores "stable_atmosphere") = Some " "%char
  /\ " "%char <> "_"%char
  /\ String.get 0 "stable_atmosphere" = Some "s"%char
  /\ String.get 0 (replaceUnderscores "stable_atmosphere") = Some "s"%char.
Proof.
  destruct (displayed_name_has_no_underscore "stable_atmosphere")
    as (_ & H2 & H3 & _).
  assert (E : String.get 6 (replaceUnderscores "stable_atmosphere")
              = Some " "%char) by reflexivity.
  split; [exact E|]. split; [exact (H2 6%nat " "%char E)|].
  split; [reflexivity|]. apply H3; [reflexivity|discriminate].
Defined.

Lemma patternCard_named p name :
  namedPattern p name -> patternCard p = Normal (cardOf p name).
Proof.
  intros [fields [-> Hn]]. unfold patternCard, cardOf. simpl.
  rewrite Hn. reflexivity.
Qed.

Lemma mapM_patternCard items names :
  Forall2 namedPattern items names ->
  mapM patternCard items = Normal (map (fun pn => cardOf (fst pn) (snd pn))
                                       (combine items names)).
Proof.
  induction 1 as [|p n items names Hp _ IH]; simpl; [reflexivity|].
  now rewrite (patternCard_named _ _ Hp), IH.
Qed.

Lemma passesGuard_object v :
  passesGuard v -> get v "summary" = Normal (member v "summary")
                   /\ get v "convective_risk" = Normal (member v "convective_risk")
                   /\ get v "patterns" = Normal (optionalGet v "patterns").
Proof.
  unfold passesGuard. destruct v; simpl; try discriminate; repeat split.
Qed.

(** X8. On an object that passes the guard and whose [patterns] is an array
    of objects with string names, the component returns the panel with the
    object's summary and risk and one card per pattern, in order: the key is
    the name, the displayed name is the name with underscores turned into
    spaces, the probability is the pattern's own. *)
Theorem named_patterns_render_in_order v items names :
  optionalGet v "patterns" = Array items ->
  Forall2 namedPattern items names ->
  passesGuard v ->
  AIPatternsPanel v
  = Normal (Some {| summary := member v "summary";
                    convective_risk := member v "convective_risk";
                    cards := map (fun pn => cardOf (fst pn) (snd pn))
                                 (combine items names) |}).
Proof.
  intros Hf Hn Hg. destruct (passesGuard_object v Hg) as (E1 & E2 & E3).
  unfold AIPatternsPanel. unfold passesGuard in Hg. rewrite Hg. simpl negb.
  cbv iota. rewrite E1, E2, E3, Hf. simpl.
  rewrite (mapM_patternCard _ _ Hn). reflexivity.
Qed.

Lemma named_patterns_render_in_order_witness :
  optionalGet MoreSamples.patternResult "patterns"
  = Array MoreSamples.patternItems
  /\ Forall2 namedPattern MoreSamples.patternItems
             ["stable_atmosphere"; "convective_risk"]
  /\ passesGuard MoreSamples.patternResult
  /\ AIPatternsPanel MoreSamples.patternResult
     = Normal (Some {| summary := member MoreSamples.patternResult "summary";
                       convective_risk :=
                         member MoreSamples.patternResult "convective_risk";
                       cards := map (fun pn => cardOf (fst pn) (snd pn))
                                    (combine MoreSamples.patternItems
                                             ["stable_atmosphere";
                                              "convective_risk"]) |}).
Proof.
  assert (H1 : optionalGet MoreSamples.patternResult "patterns"
               = Array MoreSamples.patternItems) by reflexivity.
  assert (H2 : Forall2 namedPattern MoreSamples.patternItems
                       ["stable_atmosphere"; "convective_risk"]).
  { repeat constructor; eexists; split; reflexivity. }
  assert (H3 : passesGuard MoreSamples.patternResult)
    by (unfold passesGuard; vm_compute; reflexivity).
  repeat (split; [assumption|]).
  exact (named_patterns_render_in_order _ _ _ H1 H2 H3).
Defined.

Lemma patternCard_normal p card :
  patternCard p = Normal card ->
  exists name, namedPattern p name /\ card = cardOf p name.
Proof.
  unfold patternCard.
  destruct p as [| |b|x|s|items|fields]; simpl; try discriminate.
  destruct (getOwn fields "name") as [| |b|x|s|its|fs] eqn:E; simpl;
    try discriminate.
  intros [= <-]. exists s. split; [exists fields; auto|reflexivity].
Qed.

Lemma mapM_patternCard_normal items : forall cards,
  mapM patternCard items = Normal cards ->
  Forall2 (fun card p => exists name, namedPattern p name /\ card = cardOf p name)
          cards items.
Proof.
  induction items as [|p r IH]; simpl; intros cards E.
  - injection E as <-. constructor.
  - destruct (patternCard p) as [c|] eqn:Ep; simpl in E; [|discriminate].
    destruct (mapM patternCard r) as [cs|] eqn:Er; simpl in E; [|discriminate].
    injection E as <-. constructor; [apply patternCard_normal, Ep|].
    apply IH. reflexivity.
Qed.

(** X9. A panel is never drawn empty: whenever the component returns a
    panel, [patterns] is a non-empty array, every element of it is an object
    with a string name, and the cards are these patterns' cards, one for one
    and in order. *)
Theorem rendered_panel_is_never_empty v panel :
  AIPatternsPanel v = Normal (Some panel) ->
  exists items,
    optionalGet v "patterns" = Array items
    /\ items <> []
    /\ cards panel <> []
    /\ Forall2 (fun card p =>
                  exists name, namedPattern p name /\ card = cardOf p name)
               (cards panel) items.
Proof.
  unfold AIPatternsPanel.
  destruct (truthy (optionalGet (optionalGet v "patterns") "length")) eqn:Hg;
    simpl; [|discriminate].
  destruct (passesGuard_object v Hg) as (E1 & E2 & E3).
  rewrite E1, E2, E3. simpl.
  destruct (optionalGet v "patterns") as [| |b|x|s|items|fields] eqn:Ef;
    simpl; try discriminate.
  destruct (mapM patternCard items) as [cs|] eqn:Em; simpl; [|discriminate].
  intros [= <-]. simpl. exists items.
  assert (Hne : items <> []).
  { intros ->. simpl in Hg. vm_compute in Hg. discriminate Hg. }
  pose proof (mapM_patternCard_normal _ _ Em) as F.
  repeat split; try assumption.
  intros ->. inversion F. congruence.
Qed.

Lemma rendered_panel_is_never_empty_witness :
  AIPatternsPanel MoreSamples.patternResult
  = Normal (Some MoreSamples.renderedPanel)
  /\ exists items,
       optionalGet MoreSamples.patternResult "patterns" = Array items
       /\ items <> []
       /\ cards MoreSamples.renderedPanel <> []
       /\ Forall2 (fun card p =>
                     exists name, namedPattern p name /\ card = cardOf p name)
                  (cards MoreSamples.renderedPanel) items.
Proof.
  assert (E : AIPatternsPanel MoreSamples.patternResult
              = Normal (Some MoreSamples.renderedPanel))
    by (vm_compute; reflexivity).
  split; [exact E|].
  exact (rendered_panel_is_never_empty _ _ E).
Defined.

Lemma patternCard_unnamed p :
  unnamed p -> exists m, patternCard p = Throw (TypeError m).
Proof.
  unfold unnamed, patternCard. intros H.
  destruct p as [| |b|x|s|items|fields]; simpl in *;
    try (eexists; reflexivity).
  destruct (getOwn fields "name") as [| |b|x|s|its|fs] eqn:E; simpl;
    try (eexists; reflexivity).
  exfalso. apply (H s). reflexivity.
Qed.

Lemma patternCard_throws p e :
  patternCard p = Throw e -> exists m, e = TypeError m.
Proof.
  unfold patternCard.
  destruct p as [| |b|x|s|items|fields]; simpl;
    try (intros [= <-]; eexists; reflexivity).
  destruct (getOwn fields "name") as [| |b|x|s|its|fs]; simpl;
    try (intros [= <-]; eexists; reflexivity); discriminate.
Qed.

Lemma mapM_patternCard_unnamed items :
  Exists unnamed items -> exists m, mapM patternCard items = Throw (TypeError m).
Proof.
  induction 1 as [p r Hp|p r _ IH]; simpl.
  - destruct (patternCard_unnamed p Hp) as [m ->]. simpl. now exists m.
  - destruct (patternCard p) as [c|e] eqn:Ep; simpl.
    + destruct IH as [m ->]. simpl. now exists m.
    + destruct (patternCard_throws _ _ Ep) as [m ->]. now exists m.
Qed.

(** X10. One malformed entry breaks the panel: when the object passes the
    guard, [patterns] is an array and some element of it has no string
    [name], the component throws a [TypeError]. *)
Theorem unnamed_pattern_makes_the_panel_throw v items :
  optionalGet v "patterns" = Array items ->
  Exists unnamed items ->
  passesGuard v ->
  exists m, AIPatternsPanel v = Throw (TypeError m).
Proof.
  intros Hf Hex Hg. destruct (passesGuard_object v Hg) as (E1 & E2 & E3).
  unfold AIPatternsPanel. unfold passesGuard in Hg. rewrite Hg. simpl negb.
  cbv iota. rewrite E1, E2, E3, Hf. simpl.
  destruct (mapM_patternCard_unnamed items Hex) as [m ->]. simpl. now exists m.
Qed.

Lemma unnamed_pattern_makes_the_panel_throw_witness :
  optionalGet MoreSamples.namelessPatterns "patterns"
  = Array [Object [("probability", Number 0.5%float)]]
  /\ Exists unnamed [Object [("probability", Number 0.5%float)]]
  /\ passesGuard MoreSamples.namelessPatterns
  /\ exists m, AIPatternsPanel MoreSamples.namelessPatterns = Throw (TypeError m).
Proof.
  assert (H1 : optionalGet MoreSamples.namelessPatterns "patterns"
               = Array [Object [("probability", Number 0.5%float)]])
    by reflexivity.
  assert (H2 : Exists unnamed [Object [("probability", Number 0.5%float)]]).
  { apply Exists_cons_hd. intros s. discriminate. }
  assert (H3 : passesGuard MoreSamples.namelessPatterns)
    by (unfold passesGuard; vm_compute; reflexivity).
  repeat (split; [assumption|]).
  exact (unnamed_pattern_makes_the_panel_throw _ _ H1 H2 H3).
Defined.

End PanelExtras.

(** ** The application shell: what a finished search leaves *)

Module AppExtras.

Import Js App AppSearch.

Lemma fetchWeatherByCoords_forgets weather ai s1 s2 :
  fetchWeatherByCoords weather ai s1 = fetchWeatherByCoords weather ai s2.
Proof.
  unfold fetchWeatherByCoords, tryFetch.
  destruct (promiseAll weather ai) as [[w a]|e]; [|reflexivity].
  destruct (ok w); simpl; [|reflexivity].
  destruct (json w); [|reflexivity].
  destruct (ok a); [destruct (json a)|]; reflexivity.
Qed.

Lemma handleSearch_forgets toStringOf selected first second s1 s2 :
  handleSearch toStringOf selected first second s1
  = handleSearch toStringOf selected first second s2.
Proof.
  unfold handleSearch. destruct selected as [r|].
  - now rewrite (fetchWeatherByCoords_forgets first second
                   (setError None (setLoading true s1))
                   (setError None (setLoading true s2))).
  - unfold tryByAddress.
    destruct first as [e|res]; [reflexivity|].
    destruct (ok res); simpl.
    + destruct (json res) as [data|e]; [|reflexivity].
      destruct (readProperty data "latitude"); [|reflexivity].
      destruct second as [e|aiRes]; [reflexivity|].
      destruct (ok aiRes); [destruct (json aiRes)|]; reflexivity.
    + destruct (readProperty _ "detail"); reflexivity.
Qed.

Lemma handleSearch_selected toStringOf r first second s :
  handleSearch toStringOf (Some r) first second s
  = fetchWeatherByCoords first second s.
Proof.
  unfold handleSearch.
  rewrite (fetchWeatherByCoords_forgets first second
             (setError None (setLoading true s)) s).
  unfold fetchWeatherByCoords.
  destruct (tryFetch first second (setError None (setLoading true s)))
    as [s' [e|]]; reflexivity.
Qed.

(** X11. A search keeps nothing of what was shown before: the state that
    [handleSearch] and [fetchWeatherByCoords] leave depends on the answers
    alone, not on the state they started from; and a search with a selected
    suggestion is the search by that suggestion's coordinates. *)
Theorem search_overwrites_the_previous_state
    toStringOf selected first second s1 s2 :
  handleSearch toStringOf selected first second s1
  = handleSearch toStringOf selected first second s2
  /\ fetchWeatherByCoords first second s1 = fetchWeatherByCoords first second s2
  /\ (forall r, handleSearch toStringOf (Some r) first second s1
                = fetchWeatherByCoords first second s1).
Proof.
  split; [apply handleSearch_forgets|].
  split; [apply fetchWeatherByCoords_forgets|].
  intros r. apply handleSearch_selected.
Qed.






(** X13. A search by coordinates ends without error exactly when the
    weather request is answered with status ok and a body that parses, and
    the ai-patterns request is either answered with an error status or
    answered with status ok and a body that parses.  In the first case the
    weather data are kept and the patterns are null, in the second both are
    kept. *)
Theorem coordinates_search_succeeds_exactly_when weather ai s :
  let s' := fetchWeatherByCoords weather ai s in
  (error s' = None <->
   exists body, answered weather body
                /\ (refused ai \/ exists patterns, answered ai patterns))
  /\ (forall body, answered weather body -> refused ai ->
        weatherData s' = body /\ aiPatterns s' = Null /\ error s' = None)
  /\ (forall body patterns, answered weather body -> answered ai patterns ->
        weatherData s' = body /\ aiPatterns s' = patterns /\ error s' = None).
Proof.
  cbv zeta. unfold answered, refused. split; [|split].
  - split.
    + unfold fetchWeatherByCoords, tryFetch, promiseAll.
      destruct weather as [e|[okw jw]]; destruct ai as [e'|[oka ja]];
        try destruct okw; try destruct oka; try destruct jw; try destruct ja;
        simpl; try discriminate; intros _;
        (eexists; split; [reflexivity|]);
        first [left; eexists; reflexivity | right; eexists; reflexivity].
    + intros [body [-> [[b ->]|[p ->]]]]; reflexivity.
  - intros body -> [b ->]. repeat split.
  - intros body patterns -> ->. repeat split.
Qed.

Lemma coordinates_search_succeeds_exactly_when_witness :
  answered Samples.weatherOk Samples.forecast
  /\ refused Samples.patternsUnavailable
  /\ weatherData (fetchWeatherByCoords Samples.weatherOk
                                       Samples.patternsUnavailable initial)
     = Samples.forecast
  /\ aiPatterns (fetchWeatherByCoords Samples.weatherOk
                                      Samples.patternsUnavailable initial)
     = Null
  /\ error (fetchWeatherByCoords Samples.weatherOk
                                 Samples.patternsUnavailable initial)
     = None.
Proof.
  assert (H1 : answered Samples.weatherOk Samples.forecast) by reflexivity.
  assert (H2 : refused Samples.patternsUnavailable) by (eexists; reflexivity).
  repeat (split; [assumption|]).
  destruct (coordinates_search_succeeds_exactly_when
              Samples.weatherOk Samples.patternsUnavailable initial)
    as (_ & H & _).
  exact (H Samples.forecast H1 H2).
Defined.

(** X14. When the by-address request is answered with an error status, the
    ai-patterns request plays no part: weather data and patterns are null,
    and the error shown is the [detail] of the body when that is a non-empty
    string, and "Location not found" when the body does not parse or is an
    object without a truthy [detail]. *)
Theorem address_not_found_message toStringOf body ai s :
  let s' := handleSearch toStringOf None
              (Resolved {| ok := false; json := body |}) ai s in
  weatherData s' = Null /\ aiPatterns s' = Null /\ loading s' = false
  /\ (forall e, body = Throw e -> error s' = Some "Location not found")
  /\ (forall fields, body = Normal (Object fields) ->
        truthy (getOwn fields "detail") = false ->
        error s' = Some "Location not found")
  /\ (forall fields text, body = Normal (Object fields) ->
        getOwn fields "detail" = Str text -> text <> "" ->
        error s' = Some text).
Proof.
  cbv zeta. unfold handleSearch, tryByAddress. simpl.
  split; [|split; [|split]].
  1-3: destruct (readProperty _ "detail"); reflexivity.
  split; [|split].
  - intros e ->. reflexivity.
  - intros fields -> H. simpl. unfold notFoundMessage. now rewrite H.
  - intros fields text -> H Hne. simpl. rewrite H. unfold notFoundMessage. simpl.
    destruct (String.eqb text "") eqn:E; [|reflexivity].
    apply String.eqb_eq in E. contradiction.
Qed.

Lemma address_not_found_message_witness :
  MoreSamples.addressUnknown
  = Normal (Object [("detail", Str "No results for query")])
  /\ getOwn [("detail", Str "No results for query")] "detail"
     = Str "No results for query"
  /\ "No results for query" <> ""
  /\ error (handleSearch MoreSamples.printObject None
              (Resolved {| ok := false; json := MoreSamples.addressUnknown |})
              Samples.patternsUnreachable initial)
     = Some "No results for query".
Proof.
  assert (H1 : MoreSamples.addressUnknown
               = Normal (Object [("detail", Str "No results for query")]))
    by reflexivity.
  assert (H2 : getOwn [("detail", Str "No results for query")] "detail"
               = Str "No results for query") by reflexivity.
  assert (H3 : "No results for query" <> "") by discriminate.
  repeat (split; [assumption|]).
  destruct (address_not_found_message MoreSamples.printObject
              MoreSamples.addressUnknown Samples.patternsUnreachable initial)
    as (_ & _ & _ & _ & _ & H).
  exact (H _ _ H1 H2 H3).
Defined.

(** X15. When the by-address request is answered with status ok and body
    [data]: a null body ends in an error with the weather data cleared;
    otherwise the weather data are [data] and the patterns follow the
    ai-patterns request (null on an error status, its body on status ok)
    unless that request is rejected, in which case both are cleared and its
    message is shown. *)
Theorem address_search_outcomes toStringOf data ai s :
  let s' := handleSearch toStringOf None
              (Resolved {| ok := true; json := Normal data |}) ai s in
  (data = Null -> error s' <> None /\ weatherData s' = Null)
  /\ (data <> Null -> data <> Undefined ->
      (refused ai ->
         weatherData s' = data /\ aiPatterns s' = Null /\ error s' = None)
      /\ (forall patterns, answered ai patterns ->
            weatherData s' = data /\ aiPatterns s' = patterns /\ error s' = None)
      /\ (forall e, ai = Rejected e ->
            weatherData s' = Null /\ aiPatterns s' = Null
            /\ error s' = Some (messageOf e)))
  /\ loading s' = false.
Proof.
  cbv zeta. unfold handleSearch, tryByAddress, answered, refused. simpl.
  split; [|split].
  - intros ->. simpl. split; [discriminate|reflexivity].
  - intros Hn Hu.
    assert (E : exists v, readProperty data "latitude" = Normal v).
    { destruct data; try congruence; eexists; reflexivity. }
    destruct E as [v ->]. split; [|split].
    + intros [b ->]. repeat split.
    + intros patterns ->. repeat split.
    + intros e ->. repeat split.
  - destruct (readProperty data "latitude"); [|reflexivity].
    destruct ai as [e|aiRes]; [reflexivity|].
    destruct (ok aiRes); [destruct (json aiRes)|]; reflexivity.
Qed.

Lemma address_search_outcomes_witness :
  Samples.forecast <> Null /\ Samples.forecast <> Undefined
  /\ weatherData (handleSearch MoreSamples.printObject None
                    MoreSamples.addressFound Samples.patternsUnreachable initial)
     = Null
  /\ aiPatterns (handleSearch MoreSamples.printObject None
                   MoreSamples.addressFound Samples.patternsUnreachable initial)
     = Null
  /\ error (handleSearch MoreSamples.printObject None
              MoreSamples.addressFound Samples.patternsUnreachable initial)
     = Some "Failed to fetch".
Proof.
  assert (H1 : Samples.forecast <> Null) by discriminate.
  assert (H2 : Samples.forecast <> Undefined) by discriminate.
  repeat (split; [assumption|]).
  destruct (address_search_outcomes MoreSamples.printObject Samples.forecast
              Samples.patternsUnreachable initial) as (_ & H & _).
  destruct (H H1 H2) as (_ & _ & H3).
  exact (H3 _ eq_refl).
Defined.

End AppExtras.

(** ** The search bar: timer, requests, selection and submission *)

Module SearchBarExtras.

Import SearchBar SearchBarSpec.

Lemma run_app l1 : forall s l2,
  run s (l1 ++ l2)
  = (fst (run (fst (run s l1)) l2),
     snd (run s l1) ++ snd (run (fst (run s l1)) l2)).
Proof.
  induction l1 as [|e r IH]; intros s l2; simpl.
  - now destruct (run s l2).
  - destruct (step s e) as [s1 done]. rewrite IH.
    destruct (run s1 r) as [s2 later]. simpl.
    destruct (run s2 l2) as [s3 last]. simpl. now rewrite app_assoc.
Qed.

Lemma run_cons s e rest :
  run s (e :: rest)
  = (fst (run (fst (step s e)) rest),
     snd (step s e) ++ snd (run (fst (step s e)) rest)).
Proof.
  simpl. destruct (step s e) as [s1 done]. simpl.
  now destruct (run s1 rest).
Qed.

Lemma setQuery_linked v s : linked s -> linked (setQuery v s).
Proof.
  unfold setQuery, queryEffect, linked. intros H.
  destruct (String.eqb v (query s)); [exact H|]. simpl.
  destruct (tooShort v) eqn:E; simpl; [exact I|auto].
Qed.

Lemma setQuery_query v s : query (setQuery v s) = v.
Proof.
  unfold setQuery, queryEffect.
  destruct (String.eqb v (query s)) eqn:E.
  - apply String.eqb_eq in E. now rewrite E.
  - simpl. destruct (tooShort v); reflexivity.
Qed.

Lemma setQuery_selectedResult v s :
  selectedResult (setQuery v s) = selectedResult s.
Proof.
  unfold setQuery, queryEffect. destruct (String.eqb v (query s)); simpl;
    [reflexivity|]. destruct (tooShort v); reflexivity.
Qed.

Lemma step_linked s e : linked s -> linked (fst (step s e)).
Proof.
  intros H. destruct e; simpl.
  - apply (setQuery_linked value s H).
  - destruct (debounce s); [exact I|exact H].
  - destruct r; exact H.
  - unfold handleSubmit. destruct (String.eqb (trim (query s)) ""); exact H.
  - apply (setQuery_linked (Types.display_name r)
             {| query := query s; results := results s;
                showResults := showResults s; selectedResult := Some r;
                debounce := debounce s |} H).
  - exact H.
  - destruct (0 <? List.length (results s))%nat; exact H.
Qed.

Lemma run_linked events : forall s, linked s -> linked (fst (run s events)).
Proof.
  induction events as [|e rest IH]; intros s H; simpl; [exact H|].
  pose proof (step_linked s e H) as H1.
  destruct (step s e) as [s1 done]. specialize (IH s1 H1).
  destruct (run s1 rest) as [s2 later]. exact IH.
Qed.

(** X16. In every reachable state the pending debounce timer, if there is
    one, was set for the text now in the input, which is long enough to be
    searched; so a firing of the timer issues either nothing or one request
    made from the current text, and leaves no timer pending. *)
Theorem timer_requests_the_current_text events :
  let s := fst (run initial events) in
  linked s
  /\ (snd (step s TimerFires) = []
      \/ snd (step s TimerFires) = [GeocodeRequest (query s)])
  /\ debounce (fst (step s TimerFires)) = None.
Proof.
  cbv zeta. pose proof (run_linked events initial I) as H.
  split; [exact H|]. unfold linked in H. simpl.
  destruct (debounce (fst (run initial events))) as [q|] eqn:Ed; simpl.
  - destruct H as [-> Hq]. unfold searchLocations. rewrite Hq.
    split; [right; reflexivity|reflexivity].
  - split; [left; reflexivity|exact Ed].
Qed.

Lemma step_requests s e :
  (requests (snd (step s e)) <= firings [e])%nat.
Proof.
  destruct e; simpl; try lia.
  - destruct (debounce s); simpl; [|lia].
    unfold searchLocations. destruct (tooShort s0); simpl; lia.
  - unfold handleSubmit. destruct (String.eqb (trim (query s)) ""); simpl; lia.
Qed.

Lemma requests_app l1 l2 :
  requests (l1 ++ l2) = (requests l1 + requests l2)%nat.
Proof.
  induction l1 as [|[q|q r] l1 IH]; simpl; [reflexivity| |]; rewrite IH; lia.
Qed.

(** X17. Requests are only issued by the timer, at most one per firing:
    along any sequence of events from any state, there are no more
    suggestion requests than firings of the timer. *)
Theorem at_most_one_request_per_firing events s :
  (requests (snd (run s events)) <= firings events)%nat.
Proof.
  revert s. induction events as [|e rest IH]; intros s; simpl; [lia|].
  pose proof (step_requests s e) as H1.
  destruct (step s e) as [s1 done]. specialize (IH s1).
  destruct (run s1 rest) as [s2 later]. simpl in *.
  rewrite requests_app. destruct e; simpl in *; lia.
Qed.

Lemma last_cons_default {A : Type} (a : A) l d1 d2 :
  last (a :: l) d1 = last (a :: l) d2.
Proof.
  revert a. induction l as [|b l IH]; intros a; [reflexivity|].
  change (last (b :: l) d1 = last (b :: l) d2). apply IH.
Qed.

Lemma run_changes values : forall s,
  snd (run s (map Change values)) = []
  /\ query (fst (run s (map Change values))) = last values (query s).
Proof.
  induction values as [|v r IH]; intros s; simpl; [auto|].
  destruct (IH (setShowResults false (setQuery v s))) as [H1 H2].
  destruct (run (setShowResults false (setQuery v s)) (map Change r))
    as [s2 later]. simpl in *. split; [exact H1|].
  rewrite H2. destruct r as [|w r]; [apply setQuery_query|].
  change (last (v :: w :: r) (query s)) with (last (w :: r) (query s)).
  apply last_cons_default.
Qed.

(** X18. Debouncing: from a reachable state, a burst of changes of the text
    issues no request; when the timer then fires, at most one request is
    issued and it is made from the last text typed; a second firing adds
    none. *)
Theorem typing_burst_requests_only_the_last_text events values v :
  let s := fst (run initial events) in
  let typed := map Change (values ++ [v]) in
  snd (run s typed) = []
  /\ (snd (run s (typed ++ [TimerFires])) = []
      \/ snd (run s (typed ++ [TimerFires])) = [GeocodeRequest v])
  /\ snd (run s (typed ++ [TimerFires; TimerFires]))
     = snd (run s (typed ++ [TimerFires])).
Proof.
  cbv zeta. set (s := fst (run initial events)).
  assert (Hs : linked s) by apply (run_linked events initial I).
  destruct (run_changes (values ++ [v]) s) as [H1 H2].
  rewrite last_last in H2.
  set (s1 := fst (run s (map Change (values ++ [v])))) in *.
  assert (L1 : linked s1) by (apply run_linked, Hs).
  split; [exact H1|].
  rewrite !run_app, H1. fold s1. simpl app.
  unfold linked in L1. simpl.
  destruct (debounce s1) as [q|] eqn:Ed; simpl.
  - destruct L1 as [-> Hq]. unfold searchLocations. rewrite Hq, H2. simpl.
    split; [right; reflexivity|reflexivity].
  - rewrite Ed. simpl. split; [left; reflexivity|reflexivity].
Qed.

(** X19. Editing the text does not clear the selected suggestion: only a
    selection and an answered suggestion request change it.  So selecting a
    suggestion, then changing the text to a non-blank one and submitting,
    calls the search callback with the new text and the old selection. *)
Theorem selection_survives_editing s :
  (forall e,
     (forall r, e <> Select r) -> (forall found, e <> Responds (SearchOk found)) ->
     selectedResult (fst (step s e)) = selectedResult s)
  /\ (forall r v, trim v <> "" ->
        snd (run s [Select r; Change v; Submit])
        = [OnSearch (Types.display_name r) (Some r); OnSearch v (Some r)]).
Proof.
  split.
  - intros e Hsel Hres. destruct e; simpl.
    + apply setQuery_selectedResult.
    + destruct (debounce s); reflexivity.
    + destruct r; simpl; try reflexivity. exfalso. eapply Hres. reflexivity.
    + unfold handleSubmit. destruct (String.eqb (trim (query s)) ""); reflexivity.
    + exfalso. eapply Hsel. reflexivity.
    + reflexivity.
    + destruct (0 <? List.length (results s))%nat; reflexivity.
  - intros r v Hv.
    set (s0 := {| query := query s; results := results s;
                  showResults := showResults s; selectedResult := Some r;
                  debounce := debounce s |}).
    set (s1 := setShowResults false (setQuery (Types.display_name r) s0)).
    set (s2 := setShowResults false (setQuery v s1)).
    assert (Hq : query s2 = v) by apply setQuery_query.
    assert (Hsel : selectedResult s2 = Some r).
    { change (selectedResult (setQuery v s1) = Some r).
      rewrite setQuery_selectedResult.
      change (selectedResult (setQuery (Types.display_name r) s0) = Some r).
      now rewrite setQuery_selectedResult. }
    rewrite !run_cons.
    change (fst (step s (Select r))) with s1.
    change (fst (step s1 (Change v))) with s2.
    change (snd (step s (Select r)))
      with [OnSearch (Types.display_name r) (Some r)].
    change (snd (step s1 (Change v))) with (@nil Action).
    change (step s2 Submit) with (handleSubmit s2).
    unfold handleSubmit. rewrite Hq, Hsel.
    destruct (String.eqb (trim v) "") eqn:E;
      [apply String.eqb_eq in E; contradiction|].
    reflexivity.
Qed.

Lemma selection_survives_editing_witness :
  trim "Lund" <> ""
  /\ snd (run MoreSamples.typed
              [Select MoreSamples.malmo; Change "Lund"; Submit])
     = [OnSearch "Malmo, Sweden" (Some MoreSamples.malmo);
        OnSearch "Lund" (Some MoreSamples.malmo)].
Proof.
  assert (H : trim "Lund" <> "") by discriminate.
  split; [exact H|].
  destruct (selection_survives_editing MoreSamples.typed) as [_ H2].
  exact (H2 MoreSamples.malmo "Lund" H).
Defined.

Lemma trimStart_nil l : trimStart l = [] <-> forallb isWhiteSpace l = true.
Proof.
  induction l as [|c r IH]; simpl; [tauto|].
  destruct (isWhiteSpace c); simpl; [exact IH|]. split; discriminate.
Qed.

Lemma trimStart_head l c r : trimStart l = c :: r -> isWhiteSpace c = false.
Proof.
  induction l as [|d l IH]; simpl; [discriminate|].
  destruct (isWhiteSpace d) eqn:E; [exact IH|]. intros [= <- _]. exact E.
Qed.

Lemma trim_blank text : trim text = "" <-> blank text = true.
Proof.
  unfold trim, blank. set (l := list_ascii_of_string text).
  split.
  - intros H. apply trimStart_nil.
    destruct (trimStart l) as [|c r] eqn:E; [reflexivity|exfalso].
    assert (Hr : rev (trimStart (rev (c :: r))) = []).
    { destruct (rev (trimStart (rev (c :: r)))); [reflexivity|discriminate H]. }
    apply (f_equal (@rev ascii)) in Hr. rewrite rev_involutive in Hr. simpl in Hr.
    apply trimStart_nil in Hr. rewrite forallb_app in Hr.
    apply andb_true_iff in Hr as [_ Hr]. simpl in Hr.
    rewrite (trimStart_head _ _ _ E) in Hr. discriminate Hr.
  - intros H. apply trimStart_nil in H. rewrite H. reflexivity.
Qed.

(** X20. Submitting calls the search callback exactly when the text has a
    character that is not white space: a blank text changes nothing and
    calls nothing, any other text is passed on untrimmed, once, with the
    current selection, and the suggestion list is hidden. *)
Theorem submit_calls_back_exactly_for_non_blank_text s :
  (blank (query s) = true -> step s Submit = (s, []))
  /\ (blank (query s) = false ->
      step s Submit
      = (setShowResults false s, [OnSearch (query s) (selectedResult s)])).
Proof.
  simpl. unfold handleSubmit. split; intros H.
  - apply trim_blank in H. now rewrite H.
  - destruct (String.eqb (trim (query s)) "") eqn:E; [|reflexivity].
    apply String.eqb_eq, trim_blank in E. congruence.
Qed.

Lemma submit_calls_back_exactly_for_non_blank_text_witness :
  blank (query MoreSamples.typed) = false
  /\ step MoreSamples.typed Submit
     = (setShowResults false MoreSamples.typed, [OnSearch "Lund" None]).
Proof.
  assert (H : blank (query MoreSamples.typed) = false) by reflexivity.
  split; [exact H|].
  destruct (submit_calls_back_exactly_for_non_blank_text MoreSamples.typed)
    as [_ H2].
  exact (H2 H).
Defined.

Lemma tooShort_trim q : tooShort q = false -> trim q <> "".
Proof.
  unfold tooShort. intros H E. rewrite E in H. discriminate H.
Qed.

Lemma setQuery_fresh v s :
  v <> query s -> tooShort v = false ->
  setQuery v s
  = {| query := v; results := results s; showResults := showResults s;
       selectedResult := selectedResult s; debounce := Some v |}.
Proof.
  intros Hne Hl. unfold setQuery, queryEffect.
  destruct (String.eqb v (query s)) eqn:E;
    [apply String.eqb_eq in E; contradiction|].
  simpl. now rewrite Hl.
Qed.

(** X21. Selecting a suggestion starts a suggestion request of its own: when
    the suggestion's display name differs from the text in the input and is
    long enough to be searched, the selection calls the search callback with
    the suggestion, the timer then requests suggestions for the display
    name, and the answer to that request clears the selection and opens the
    list again, so that a later submission passes the display name without
    the suggestion. *)
Theorem selecting_starts_a_request_that_clears_the_selection s r found :
  Types.display_name r <> query s ->
  tooShort (Types.display_name r) = false ->
  let name := Types.display_name r in
  let s' := fst (run s [Select r; TimerFires; Responds (SearchOk found)]) in
  snd (run s [Select r; TimerFires; Responds (SearchOk found)])
  = [OnSearch name (Some r); GeocodeRequest name]
  /\ selectedResult s' = None
  /\ showResults s' = true
  /\ snd (step s' Submit) = [OnSearch name None].
Proof.
  intros Hne Hl. cbv zeta.
  set (s1 := {| query := query s; results := results s;
                showResults := showResults s; selectedResult := Some r;
                debounce := debounce s |}).
  assert (E1 : step s (Select r)
               = (setShowResults false
                    {| query := Types.display_name r; results := results s;
                       showResults := showResults s; selectedResult := Some r;
                       debounce := Some (Types.display_name r) |},
                  [OnSearch (Types.display_name r) (Some r)])).
  { simpl. unfold handleSelect. fold s1.
    now rewrite (setQuery_fresh (Types.display_name r) s1 Hne Hl). }
  rewrite !run_cons, E1. simpl.
  unfold searchLocations. rewrite Hl. simpl.
  repeat split. unfold handleSubmit. simpl.
  destruct (String.eqb (trim (Types.display_name r)) "") eqn:E; [|reflexivity].
  apply String.eqb_eq in E. exfalso. exact (tooShort_trim _ Hl E).
Qed.

Lemma selecting_starts_a_request_that_clears_the_selection_witness :
  Types.display_name MoreSamples.malmo <> query MoreSamples.typed
  /\ tooShort (Types.display_name MoreSamples.malmo) = false
  /\ snd (run MoreSamples.typed
            [Select MoreSamples.malmo; TimerFires; Responds (SearchOk None)])
     = [OnSearch "Malmo, Sweden" (Some MoreSamples.malmo);
        GeocodeRequest "Malmo, Sweden"].
Proof.
  assert (H1 : Types.display_name MoreSamples.malmo <> query MoreSamples.typed)
    by discriminate.
  assert (H2 : tooShort (Types.display_name MoreSamples.malmo) = false)
    by reflexivity.
  repeat (split; [assumption|]).
  destruct (selecting_starts_a_request_that_clears_the_selection
              MoreSamples.typed MoreSamples.malmo None H1 H2) as [H _].
  exact H.
Defined.

End SearchBarExtras.
